(** * go-ffmpeg: the progress line parser and the transcode orchestrator

    A shallow embedding of [newProgress] in its two revisions (the
    fixed-position one of [src/progress.go], module [Fixed], and the
    name-scanning one of [src/unnamed/part_000], module [Scan]), of
    [src/errors.go], and of [cleanUp] and the reader goroutine of [Start] in
    the two revisions that [src/ffmpeg.go] holds (lines 1-269, module
    [NonBlocking], and lines 270-497, module [Blocking]).

    Conventions of the embedding:
    - a Go [string] is a Rocq [string] (a sequence of bytes);
    - [int], [int64] and [time.Duration] are [Z] with the 64-bit wrap-around
      written out ([wrap64]);
    - [float64] is [spec_float] at precision 53 and [emax] 1024, the IEEE 754
      binary64 operations of the Standard Library's [SpecFloat];
    - [time.Time] is the number of nanoseconds since the zero [time.Time];
    - the wall clock that [time.Since] reads is an explicit argument [now];
    - the functions of Go's library whose behaviour rests on tables or on a
      large algorithm ([unicode.IsLetter], [unicode.IsNumber],
      [strings.TrimSpace], [strconv.Atoi], [strconv.ParseFloat]) are the
      members of the class [GoLib]; the theorems hold for every instance, and
      [RefLib] is a reference instance the examples are evaluated with. *)

From Stdlib Require Import ZArith List String Ascii Bool Lia.
From Stdlib Require Import Floats.SpecFloat.
Import ListNotations.

Local Open Scope string_scope.
Local Open Scope list_scope.
Local Open Scope Z_scope.

(** ** Machine integers *)

Definition wrap64 (z : Z) : Z := (z + 2 ^ 63) mod 2 ^ 64 - 2 ^ 63.

Definition minInt64 : Z := - 2 ^ 63.
Definition maxInt64 : Z := 2 ^ 63 - 1.

Definition in_int64 (z : Z) : bool := (minInt64 <=? z) && (z <=? maxInt64).

(** Saturation, as [time.Time.Sub] does it. *)
Definition sat64 (z : Z) : Z :=
  if z <? minInt64 then minInt64 else if maxInt64 <? z then maxInt64 else z.

(** ** float64 *)

Definition float64 : Type := spec_float.

Definition prec64 : Z := 53.
Definition emax64 : Z := 1024.

Definition fmul : float64 -> float64 -> float64 := SFmul prec64 emax64.
Definition fdiv : float64 -> float64 -> float64 := SFdiv prec64 emax64.
Definition fsub : float64 -> float64 -> float64 := SFsub prec64 emax64.
Definition feqb : float64 -> float64 -> bool := SFeqb.

(** [float64(i)] for an integer [i]: rounding to nearest, ties to even. *)
Definition float64_of_int (i : Z) : float64 :=
  binary_normalize prec64 emax64 i 0 false.

(** The binary64 nearest to [m * 10 ^ e] for [m >= 0], which is how Go reads a
    decimal literal such as [0.01] and how [strconv.ParseFloat] rounds. *)
Definition float64_of_decimal (neg : bool) (m e : Z) : float64 :=
  match m with
  | Z0 => S754_zero neg
  | Zneg _ => S754_nan
  | Zpos _ =>
      if 0 <=? e then
        binary_normalize prec64 emax64 (if neg then - (m * 10 ^ e) else m * 10 ^ e) 0 false
      else
        let '(q, e', l) := SFdiv_core_binary prec64 emax64 m 0 (10 ^ (- e)) 0 in
        binary_round_aux prec64 emax64 neg q e' l
  end.

(** Neither a zero nor a NaN. *)
Definition is_number (f : float64) : bool :=
  match f with
  | S754_finite _ _ _ | S754_infinity _ => true
  | _ => false
  end.

(** The integer part of a finite float, towards zero. *)
Definition float64_trunc (f : float64) : option Z :=
  match f with
  | S754_zero _ => Some 0
  | S754_finite s m e =>
      let mag := if 0 <=? e then Z.shiftl (Zpos m) e else Z.shiftr (Zpos m) (- e) in
      Some (if s then - mag else mag)
  | S754_infinity _ | S754_nan => None
  end.

(** ** Runes and UTF-8 *)

Definition rune : Type := Z.

Definition RuneError : rune := 65533.

Definition byte_of (a : ascii) : Z := Z.of_N (N_of_ascii a).

Definition between (lo hi b : Z) : bool := (lo <=? b) && (b <=? hi).

Definition continuation (b : Z) : bool := between 128 191 b.

(** The range the second byte of a sequence must lie in, by leading byte; the
    number of the sequence's bytes is paired with it ([0]: not a leading byte).
    This is the table [first] of [unicode/utf8] with its [acceptRanges]. *)
Definition utf8_first (b0 : Z) : Z * (Z * Z) :=
  if between 194 223 b0 then (2, (128, 191))
  else if b0 =? 224 then (3, (160, 191))
  else if between 225 236 b0 then (3, (128, 191))
  else if b0 =? 237 then (3, (128, 159))
  else if between 238 239 b0 then (3, (128, 191))
  else if b0 =? 240 then (4, (144, 191))
  else if between 241 243 b0 then (4, (128, 191))
  else if b0 =? 244 then (4, (128, 143))
  else (0, (0, 0)).

(** The runes of a string, each with the bytes it was decoded from, as a
    [for ... range] loop over the string yields them: an invalid byte is
    [RuneError] of width one. *)
Fixpoint runes (s : string) : list (rune * string) :=
  match s with
  | EmptyString => []
  | String a0 r1 =>
      let b0 := byte_of a0 in
      let bad := fun _ : unit => (RuneError, String a0 EmptyString) :: runes r1 in
      if b0 <? 128 then (b0, String a0 EmptyString) :: runes r1
      else
        let '(sz, (lo, hi)) := utf8_first b0 in
        if sz =? 0 then bad tt
        else
          match r1 with
          | EmptyString => bad tt
          | String a1 r2 =>
              let b1 := byte_of a1 in
              if negb (between lo hi b1) then bad tt
              else if sz =? 2 then
                (Z.lor (Z.shiftl (Z.land b0 31) 6) (Z.land b1 63),
                 String a0 (String a1 EmptyString)) :: runes r2
              else
                match r2 with
                | EmptyString => bad tt
                | String a2 r3 =>
                    let b2 := byte_of a2 in
                    if negb (continuation b2) then bad tt
                    else if sz =? 3 then
                      (Z.lor (Z.shiftl (Z.land b0 15) 12)
                         (Z.lor (Z.shiftl (Z.land b1 63) 6) (Z.land b2 63)),
                       String a0 (String a1 (String a2 EmptyString))) :: runes r3
                    else
                      match r3 with
                      | EmptyString => bad tt
                      | String a3 r4 =>
                          let b3 := byte_of a3 in
                          if negb (continuation b3) then bad tt
                          else
                            (Z.lor (Z.shiftl (Z.land b0 7) 18)
                               (Z.lor (Z.shiftl (Z.land b1 63) 12)
                                  (Z.lor (Z.shiftl (Z.land b2 63) 6) (Z.land b3 63))),
                             String a0 (String a1 (String a2 (String a3 EmptyString))))
                              :: runes r4
                      end
                end
          end
  end.

(** ** Package [strings] *)

Fixpoint HasPrefix (s prefix : string) : bool :=
  match prefix, s with
  | EmptyString, _ => true
  | String p prefix', String c s' => Ascii.eqb c p && HasPrefix s' prefix'
  | String _ _, EmptyString => false
  end.

(** [strings.FieldsFunc]: the maximal runs of runes that do not satisfy [f].
    [cur] is the field being read, [None] between fields. *)
Fixpoint fieldsFunc_go (f : rune -> bool) (rs : list (rune * string))
    (cur : option string) : list string :=
  match rs with
  | [] => match cur with Some w => [w] | None => [] end
  | (r, bytes) :: rs' =>
      if f r then
        match cur with
        | Some w => w :: fieldsFunc_go f rs' None
        | None => fieldsFunc_go f rs' None
        end
      else
        match cur with
        | Some w => fieldsFunc_go f rs' (Some (w ++ bytes)%string)
        | None => fieldsFunc_go f rs' (Some bytes)
        end
  end.

Definition FieldsFunc (s : string) (f : rune -> bool) : list string :=
  fieldsFunc_go f (runes s) None.

Fixpoint mem_byte (c : ascii) (cutset : string) : bool :=
  match cutset with
  | EmptyString => false
  | String d cutset' => Ascii.eqb c d || mem_byte c cutset'
  end.

(** [strings.TrimRight] for a cutset of ASCII bytes, the only kind the parser
    passes: the trailing bytes that are in the cutset are removed. *)
Fixpoint TrimRight (s cutset : string) : string :=
  match s with
  | EmptyString => EmptyString
  | String c s' =>
      match TrimRight s' cutset with
      | EmptyString => if mem_byte c cutset then EmptyString else String c EmptyString
      | t => String c t
      end
  end.

(** [strings.Split] for a separator of one byte, the only kind the parser
    passes: always at least one part. *)
Fixpoint Split (s : string) (sep : ascii) : list string :=
  match s with
  | EmptyString => [EmptyString]
  | String c s' =>
      if Ascii.eqb c sep then EmptyString :: Split s' sep
      else
        match Split s' sep with
        | [] => [String c EmptyString]
        | part :: parts => String c part :: parts
        end
  end.

(** ** Package [time] *)

Definition time_Duration : Type := Z.
Definition time_Time : Type := Z.

Definition Nanosecond : time_Duration := 1.
Definition Second : time_Duration := 1000000000 * Nanosecond.
Definition Minute : time_Duration := 60 * Second.
Definition Hour : time_Duration := 60 * Minute.

(** [time.Since(t)] when the wall clock reads [now]. *)
Definition time_Since (now t : time_Time) : time_Duration := sat64 (now - t).

(** [t.Add(d)]. *)
Definition Time_Add (t : time_Time) (d : time_Duration) : time_Time := t + d.

(** ** The library functions the parser relies on *)

Class GoLib : Type := {
  unicode_IsLetter : rune -> bool;
  unicode_IsNumber : rune -> bool;
  strings_TrimSpace : string -> string;
  (** [None] stands for a non-nil error. *)
  strconv_Atoi : string -> option Z;
  strconv_ParseFloat : string -> option float64;
  (** The result of converting to [int64] a float that [int64] cannot
      represent, which the language leaves to the implementation. *)
  int64_unrepresentable : float64 -> Z
}.

(** [int64(f)], which is also [time.Duration(f)]. *)
Definition int64_of_float64 `{GoLib} (f : float64) : Z :=
  match float64_trunc f with
  | Some z => if in_int64 z then z else int64_unrepresentable f
  | None => int64_unrepresentable f
  end.

(** ** src/errors.go *)

Inductive error : Type :=
  | ErrNoProgressInformation
  | ErrWrongNumberOfFields
  | ErrFrameNumber
  | ErrFPS
  | ErrQ
  | ErrSize
  | ErrTime
  | ErrBitrate
  | ErrDup
  | ErrDrop
  | ErrSpeed
  | ErrFfProbeStdOutPipe
  | ErrStdErrPipe
  | ErrFfProbeCommand
  | ErrFfProbeDuration.

Definition error_eq_dec (a b : error) : {a = b} + {a <> b}.
Proof. decide equality. Defined.

(** [errors.Is] on the sentinels: identity. *)
Definition errors_Is (err target : error) : bool :=
  if error_eq_dec err target then true else false.

(** A Go result [(value, error)]: exactly one of the two is meaningful. *)
Inductive result (A : Type) : Type :=
  | Ok (a : A)
  | Err (e : error).

Arguments Ok {A} a.
Arguments Err {A} e.

Definition bind {A B : Type} (m : result A) (k : A -> result B) : result B :=
  match m with
  | Ok a => k a
  | Err e => Err e
  end.

(** [o ?? e]: the value of [o], or the sentinel [e] when the call failed. *)
Definition or_err {A : Type} (o : option A) (e : error) : result A :=
  match o with
  | Some a => Ok a
  | None => Err e
  end.

Declare Scope result_scope.
Delimit Scope result_scope with result.
Notation "x <- m ;; k" := (bind m (fun x => k))
  (at level 100, m at next level, right associativity) : result_scope.
Notation "o ?? e" := (or_err o e) (at level 50, no associativity) : result_scope.
Local Open Scope result_scope.

(** The separator predicate both revisions of the parser pass to
    [strings.FieldsFunc]. *)
Definition fieldsFunc `{GoLib} (c : rune) : bool :=
  negb (unicode_IsLetter c) && negb (unicode_IsNumber c)
  && negb (c =? 46) && negb (c =? 45) && negb (c =? 58) && negb (c =? 47).

(** [fields[i]]; every use is behind a check of the length. *)
Definition index (fields : list string) (i : nat) : string := nth i fields "".

(** [time.Duration(hours)*time.Hour + time.Duration(minutes)*time.Minute +
    time.Duration(seconds)*time.Second], the expression both revisions share. *)
Definition timeThroughFile_of `{GoLib} (hours minutes : Z) (seconds : float64)
    : time_Duration :=
  wrap64 (wrap64 (wrap64 (hours * Hour) + wrap64 (minutes * Minute))
          + wrap64 (int64_of_float64 seconds * Second)).

(** The time field of the fixed-position revision, and the [else] branch of
    the name-scanning one. *)
Definition parseTime `{GoLib} (field : string) : result time_Duration :=
  let splitTime := Split field ":"%char in
  if negb (Nat.eqb (List.length splitTime) 3) then Err ErrTime else
  hours <- strconv_Atoi (index splitTime 0) ?? ErrTime ;;
  minutes <- strconv_Atoi (index splitTime 1) ?? ErrTime ;;
  seconds <- strconv_ParseFloat (index splitTime 2) ?? ErrTime ;;
  Ok (timeThroughFile_of hours minutes seconds).

(** ** src/progress.go: the fixed-position revision *)

Module Fixed.

Record Progress : Type := {
  InputFile : string;
  OutputFile : string;
  Frame : Z;
  FPS : float64;
  Q : float64;
  Size : float64;
  Time : time_Duration;
  Bitrate : float64;
  Dup : Z;
  Drop : Z;
  Speed : float64;
  PercentComplete : float64;
  TimeRemaining : time_Duration;
  EstimatedFinishTime : time_Time
}.

(** [Progress{}]. *)
Definition zeroProgress : Progress :=
  {| InputFile := ""; OutputFile := ""; Frame := 0; FPS := S754_zero false;
     Q := S754_zero false; Size := S754_zero false; Time := 0;
     Bitrate := S754_zero false; Dup := 0; Drop := 0; Speed := S754_zero false;
     PercentComplete := S754_zero false; TimeRemaining := 0;
     EstimatedFinishTime := 0 |}.

Definition FrameIndex : nat := 1.
Definition FPSIndex : nat := 3.
Definition QIndex : nat := 5.
Definition SizeIndex : nat := 7.
Definition TimeIndex : nat := 9.
Definition BitrateIndex : nat := 11.
Definition DupIndex : nat := 13.
Definition DropIndex : nat := 15.
Definition SpeedIndex : nat := 17.

Definition newProgress `{GoLib} (now : time_Time) (line : string)
    (duration : time_Duration) (startTime : time_Time)
    (inputFile outputFile : string) : result Progress :=
  if negb (HasPrefix line "frame=") then Err ErrNoProgressInformation else
  let fields := FieldsFunc line fieldsFunc in
  if negb (Nat.eqb (List.length fields) 18) then Err ErrWrongNumberOfFields else
  frame <- strconv_Atoi (index fields FrameIndex) ?? ErrFrameNumber ;;
  fps <- strconv_ParseFloat (index fields FPSIndex) ?? ErrFPS ;;
  q <- strconv_ParseFloat (index fields QIndex) ?? ErrQ ;;
  size <- strconv_ParseFloat (TrimRight (index fields SizeIndex) "KiB") ?? ErrSize ;;
  timeThroughFile <- parseTime (index fields TimeIndex) ;;
  bitrate <- strconv_ParseFloat (TrimRight (index fields BitrateIndex) "kbit/s")
               ?? ErrBitrate ;;
  dup <- strconv_Atoi (index fields DupIndex) ?? ErrDup ;;
  drop <- strconv_Atoi (index fields DropIndex) ?? ErrDrop ;;
  speed <- strconv_ParseFloat (TrimRight (index fields SpeedIndex) "x") ?? ErrSpeed ;;
  let percentComplete :=
    fmul (fdiv (float64_of_int timeThroughFile) (float64_of_int duration))
         (float64_of_int 100) in
  let timeTaken := time_Since now startTime in
  let timeRemaining :=
    int64_of_float64
      (fmul (fdiv (float64_of_int timeTaken) percentComplete)
            (fsub (float64_of_int 100) percentComplete)) in
  let predictedFinishTime := Time_Add startTime (wrap64 (timeTaken + timeRemaining)) in
  Ok {| InputFile := inputFile; OutputFile := outputFile; Frame := frame;
        FPS := fps; Q := q; Size := size; Time := timeThroughFile;
        Bitrate := bitrate; Dup := dup; Drop := drop; Speed := speed;
        PercentComplete := percentComplete; TimeRemaining := timeRemaining;
        EstimatedFinishTime := predictedFinishTime |}.

(** Two results that differ at most in what is computed from the wall clock:
    the time remaining and the estimated finish time. *)
Definition same_up_to_clock (r1 r2 : result Progress) : Prop :=
  match r1, r2 with
  | Err e1, Err e2 => e1 = e2
  | Ok p1, Ok p2 =>
      InputFile p1 = InputFile p2 /\ OutputFile p1 = OutputFile p2
      /\ Frame p1 = Frame p2 /\ FPS p1 = FPS p2 /\ Q p1 = Q p2
      /\ Size p1 = Size p2 /\ Time p1 = Time p2 /\ Bitrate p1 = Bitrate p2
      /\ Dup p1 = Dup p2 /\ Drop p1 = Drop p2 /\ Speed p1 = Speed p2
      /\ PercentComplete p1 = PercentComplete p2
  | _, _ => False
  end.

End Fixed.

(** ** src/unnamed/part_000: the name-scanning revision *)

Module Scan.

Record Progress : Type := {
  InputFile : string;
  OutputFile : string;
  Frame : Z;
  FPS : float64;
  Q : float64;
  Size : float64;
  Time : time_Duration;
  Bitrate : float64;
  Speed : float64;
  PercentComplete : float64;
  TimeRemaining : time_Duration;
  EstimatedFinishTime : time_Time
}.

Definition zeroProgress : Progress :=
  {| InputFile := ""; OutputFile := ""; Frame := 0; FPS := S754_zero false;
     Q := S754_zero false; Size := S754_zero false; Time := 0;
     Bitrate := S754_zero false; Speed := S754_zero false;
     PercentComplete := S754_zero false; TimeRemaining := 0;
     EstimatedFinishTime := 0 |}.

(** The seven index variables, declared (so zero) before the loop. *)
Record indexes : Type := {
  frameIndex : nat;
  fpsIndex : nat;
  qIndex : nat;
  sizeIndex : nat;
  timeIndex : nat;
  bitrateIndex : nat;
  speedIndex : nat
}.

Definition no_indexes : indexes :=
  {| frameIndex := 0; fpsIndex := 0; qIndex := 0; sizeIndex := 0;
     timeIndex := 0; bitrateIndex := 0; speedIndex := 0 |}.

(** The [switch] of the loop body, on the trimmed [fields[i]]. *)
Definition switch (ix : indexes) (i : nat) (field : string) : indexes :=
  let '(Build_indexes fr fp q sz tm br sp) := ix in
  if String.eqb field "frame" then Build_indexes (i + 1) fp q sz tm br sp
  else if String.eqb field "fps" then Build_indexes fr (i + 1) q sz tm br sp
  else if String.eqb field "q" then Build_indexes fr fp (i + 1) sz tm br sp
  else if String.eqb field "size" then Build_indexes fr fp q (i + 1) tm br sp
  else if String.eqb field "time" then Build_indexes fr fp q sz (i + 1) br sp
  else if String.eqb field "bitrate" then Build_indexes fr fp q sz tm (i + 1) sp
  else if String.eqb field "speed" then Build_indexes fr fp q sz tm br (i + 1)
  else ix.

(** [for i, field := range fields]: the indexes after the iterations from [i]
    on. The loop also stores the trimmed field back, which [newProgress]
    below does with [map]. *)
Fixpoint loop `{GoLib} (fields : list string) (i : nat) (ix : indexes) : indexes :=
  match fields with
  | [] => ix
  | field :: rest => loop rest (S i) (switch ix i (strings_TrimSpace field))
  end.

(** [xIndex != 0 && xIndex < len(fields)]. *)
Definition located (fields : list string) (i : nat) : bool :=
  negb (Nat.eqb i 0) && Nat.ltb i (List.length fields).

Definition newProgress `{GoLib} (now : time_Time) (line : string)
    (duration : time_Duration) (startTime : time_Time)
    (inputFile outputFile : string) : result Progress :=
  if negb (HasPrefix line "frame=") then Err ErrNoProgressInformation else
  let split := FieldsFunc line fieldsFunc in
  let ix := loop split 0%nat no_indexes in
  let fields := map strings_TrimSpace split in
  frame <- (if located fields (frameIndex ix)
            then strconv_Atoi (index fields (frameIndex ix)) ?? ErrFrameNumber
            else Err ErrFrameNumber) ;;
  fps <- (if located fields (fpsIndex ix)
          then strconv_ParseFloat (index fields (fpsIndex ix)) ?? ErrFPS
          else Err ErrFPS) ;;
  q <- (if located fields (qIndex ix)
        then strconv_ParseFloat (index fields (qIndex ix)) ?? ErrQ
        else Err ErrQ) ;;
  size <- (if located fields (sizeIndex ix)
           then strconv_ParseFloat (TrimRight (index fields (sizeIndex ix)) "KiB")
                  ?? ErrSize
           else Err ErrSize) ;;
  timeThroughFile <- (if located fields (timeIndex ix)
                      then if String.eqb (index fields (timeIndex ix)) "N/A"
                           then Ok 0
                           else parseTime (index fields (timeIndex ix))
                      else Err ErrTime) ;;
  bitrate <- (if located fields (bitrateIndex ix)
              then if String.eqb (index fields (bitrateIndex ix)) "N/A"
                   then Ok (S754_zero false)
                   else strconv_ParseFloat
                          (TrimRight (index fields (bitrateIndex ix)) "kbit/s")
                          ?? ErrBitrate
              else Err ErrBitrate) ;;
  speed <- (if located fields (speedIndex ix)
            then if String.eqb (index fields (speedIndex ix)) "N/A"
                 then Ok (S754_zero false)
                 else strconv_ParseFloat
                        (TrimRight (index fields (speedIndex ix)) "x") ?? ErrSpeed
            else Err ErrSpeed) ;;
  let percentComplete :=
    fmul (fdiv (float64_of_int timeThroughFile) (float64_of_int duration))
         (float64_of_int 100) in
  let timeTaken := time_Since now startTime in
  let percentComplete :=
    if feqb percentComplete (S754_zero false)
    then float64_of_decimal false 1 (-2)
    else percentComplete in
  let timeRemaining :=
    int64_of_float64
      (fmul (fdiv (float64_of_int timeTaken) percentComplete)
            (fsub (float64_of_int 100) percentComplete)) in
  let predictedFinishTime := Time_Add startTime (wrap64 (timeTaken + timeRemaining)) in
  Ok {| InputFile := inputFile; OutputFile := outputFile; Frame := frame;
        FPS := fps; Q := q; Size := size; Time := timeThroughFile;
        Bitrate := bitrate; Speed := speed;
        PercentComplete := percentComplete; TimeRemaining := timeRemaining;
        EstimatedFinishTime := predictedFinishTime |}.

Definition same_up_to_clock (r1 r2 : result Progress) : Prop :=
  match r1, r2 with
  | Err e1, Err e2 => e1 = e2
  | Ok p1, Ok p2 =>
      InputFile p1 = InputFile p2 /\ OutputFile p1 = OutputFile p2
      /\ Frame p1 = Frame p2 /\ FPS p1 = FPS p2 /\ Q p1 = Q p2
      /\ Size p1 = Size p2 /\ Time p1 = Time p2 /\ Bitrate p1 = Bitrate p2
      /\ Speed p1 = Speed p2 /\ PercentComplete p1 = PercentComplete p2
  | _, _ => False
  end.

End Scan.

(** ** A reference instance of the library

    Exact on what the examples exercise: ASCII and Latin-1 runes, decimal
    integers, and decimal floating-point numbers (correctly rounded) with the
    special values [inf], [infinity] and [nan]. It does not read hexadecimal
    floats or digit-separating underscores, knows no letter or number beyond
    Latin-1 and trims ASCII white space only; the implementation-defined
    conversion is that of amd64. *)

Module Ref.

Definition IsLetter (r : rune) : bool :=
  between 65 90 r || between 97 122 r || (r =? 170) || (r =? 181) || (r =? 186)
  || between 192 214 r || between 216 246 r || between 248 255 r.

Definition IsNumber (r : rune) : bool :=
  between 48 57 r || between 178 179 r || (r =? 185) || between 188 190 r.

Definition isSpace (c : ascii) : bool :=
  let b := byte_of c in between 9 13 b || (b =? 32).

Fixpoint trimLeft (s : string) : string :=
  match s with
  | String c s' => if isSpace c then trimLeft s' else s
  | EmptyString => EmptyString
  end.

Fixpoint trimRight (s : string) : string :=
  match s with
  | EmptyString => EmptyString
  | String c s' =>
      match trimRight s' with
      | EmptyString => if isSpace c then EmptyString else String c EmptyString
      | t => String c t
      end
  end.

Definition TrimSpace (s : string) : string := trimRight (trimLeft s).

Definition isDigit (b : Z) : bool := between 48 57 b.

(** The value of a string of decimal digits; [None] on any other byte. *)
Fixpoint digits (s : string) (acc : Z) : option Z :=
  match s with
  | EmptyString => Some acc
  | String c s' =>
      let b := byte_of c in
      if isDigit b then digits s' (10 * acc + (b - 48)) else None
  end.

(** An optional sign, split off. *)
Definition sign (s : string) : bool * string :=
  match s with
  | String c s' =>
      if byte_of c =? 45 then (true, s')
      else if byte_of c =? 43 then (false, s')
      else (false, s)
  | EmptyString => (false, s)
  end.

Definition unsigned (s : string) : option Z :=
  match s with
  | EmptyString => None
  | _ => digits s 0
  end.

Definition signed (s : string) : option Z :=
  let '(neg, body) := sign s in
  match unsigned body with
  | Some n => Some (if neg then - n else n)
  | None => None
  end.

Definition Atoi (s : string) : option Z :=
  match signed s with
  | Some v => if in_int64 v then Some v else None
  | None => None
  end.

Definition lower (c : ascii) : ascii :=
  let b := byte_of c in
  if between 65 90 b then ascii_of_N (Z.to_N (b + 32)) else c.

Fixpoint lowered (s : string) : string :=
  match s with
  | EmptyString => EmptyString
  | String c s' => String (lower c) (lowered s')
  end.

(** The digits of the mantissa with at most one point: the mantissa read as
    an integer, minus the number of digits after the point, and the rest of
    the string. *)
Fixpoint mantissa (s : string) (sawdot sawdigits : bool) (m dp : Z)
    : option (Z * Z * string) :=
  match s with
  | EmptyString => if sawdigits then Some (m, dp, EmptyString) else None
  | String c s' =>
      let b := byte_of c in
      if isDigit b then
        mantissa s' sawdot true (10 * m + (b - 48)) (if sawdot then dp - 1 else dp)
      else if (b =? 46) && negb sawdot then mantissa s' true sawdigits m dp
      else if sawdigits then Some (m, dp, s) else None
  end.

(** The exponent part: absent, or [e] or [E], an optional sign and digits. *)
Definition exponent (s : string) : option Z :=
  match s with
  | EmptyString => Some 0
  | String c s' => if byte_of (lower c) =? 101 then signed s' else None
  end.

Definition special (s : string) : option float64 :=
  let '(neg, body) := sign s in
  let l := lowered body in
  if String.eqb l "inf" || String.eqb l "infinity" then Some (S754_infinity neg)
  else if String.eqb (lowered s) "nan" then Some S754_nan
  else None.

Definition ParseFloat (s : string) : option float64 :=
  match special s with
  | Some f => Some f
  | None =>
      let '(neg, body) := sign s in
      match mantissa body false false 0 0 with
      | Some (m, dp, rest) =>
          match exponent rest with
          | Some e =>
              match float64_of_decimal neg m (dp + e) with
              | S754_infinity _ => None
              | f => Some f
              end
          | None => None
          end
      | None => None
      end
  end.

Definition unrepresentable (_ : float64) : Z := minInt64.

End Ref.

#[export] Instance RefLib : GoLib := {|
  unicode_IsLetter := Ref.IsLetter;
  unicode_IsNumber := Ref.IsNumber;
  strings_TrimSpace := Ref.TrimSpace;
  strconv_Atoi := Ref.Atoi;
  strconv_ParseFloat := Ref.ParseFloat;
  int64_unrepresentable := Ref.unrepresentable
|}.

(** ** src/ffmpeg.go: what a run acts on

    The three channels are unbuffered. A task is a function of the world: it
    returns, panics (a send on, or a close of, a closed channel), or blocks
    for ever (a blocking send that no consumer ever receives). What the
    scheduler and the consumer decide, and the wall clock, are read from a
    [Sched], one for each iteration of the reader. *)

Inductive chan : Type := ChProgress | ChError | ChDone.

Definition chan_eqb (a b : chan) : bool :=
  match a, b with
  | ChProgress, ChProgress | ChError, ChError | ChDone, ChDone => true
  | _, _ => false
  end.

Record Sched : Type := {
  now : time_Time;          (** the wall clock *)
  ctxDone : bool;           (** [<-f.context.Done()] is ready *)
  recvProgress : bool;      (** a consumer receives on [f.Progress] *)
  recvError : bool;         (** a consumer receives on [f.Error] *)
  recvDone : bool           (** a consumer receives on [f.Done] *)
}.

(** The fields of [Ffmpeg] that are data; its channels, its command and its
    context are in the world and in the [Sched]. *)
Record Ffmpeg : Type := {
  inputFile : string;
  outputFile : string;
  duration : time_Duration;
  startTime : time_Time
}.

Section Run.

Context {Progress : Type}.

Inductive message : Type :=
  | MProgress (p : Progress)
  | MError (e : error)
  | MDone (b : bool).

Definition chan_of (m : message) : chan :=
  match m with
  | MProgress _ => ChProgress
  | MError _ => ChError
  | MDone _ => ChDone
  end.

Inductive event : Type :=
  | Received (m : message)   (** a send that a consumer received *)
  | Dropped (m : message)    (** a non-blocking send that took [default] *)
  | Closed (c : chan)
  | Removed (path : string)  (** [os.Remove] *)
  | Killed.                  (** [f.command.Cancel()] *)

Record World : Type := {
  files : list string;       (** the paths that name a file *)
  progressClosed : bool;
  errorClosed : bool;
  doneClosed : bool;
  trace : list event         (** what happened, oldest first *)
}.

Definition exists_ (w : World) (path : string) : bool :=
  existsb (String.eqb path) (files w).

Definition closed (w : World) (c : chan) : bool :=
  match c with
  | ChProgress => progressClosed w
  | ChError => errorClosed w
  | ChDone => doneClosed w
  end.

Inductive outcome (A : Type) : Type :=
  | Returned (a : A) (w : World)
  | Panicked (w : World)
  | Blocked (w : World).

Definition Task (A : Type) : Type := World -> outcome A.

Definition ret {A : Type} (a : A) : Task A := fun w => Returned A a w.

Definition andThen {A B : Type} (t : Task A) (k : A -> Task B) : Task B :=
  fun w =>
    match t w with
    | Returned _ a w' => k a w'
    | Panicked _ w' => Panicked B w'
    | Blocked _ w' => Blocked B w'
    end.

Definition record (ev : event) (w : World) : World :=
  {| files := files w; progressClosed := progressClosed w;
     errorClosed := errorClosed w; doneClosed := doneClosed w;
     trace := trace w ++ [ev] |}.

(** [select { case ch <- m: ...; default: ... }]: whether the send was chosen. *)
Definition trySend (ready : bool) (m : message) : Task bool :=
  fun w =>
    if closed w (chan_of m) then Panicked bool w
    else if ready then Returned bool true (record (Received m) w)
    else Returned bool false (record (Dropped m) w).

(** [ch <- m]. *)
Definition send (ready : bool) (m : message) : Task unit :=
  fun w =>
    if closed w (chan_of m) then Panicked unit w
    else if ready then Returned unit tt (record (Received m) w)
    else Blocked unit w.

(** [close(ch)]. *)
Definition close (c : chan) : Task unit :=
  fun w =>
    if closed w c then Panicked unit w
    else
      Returned unit tt
        {| files := files w;
           progressClosed := chan_eqb c ChProgress || progressClosed w;
           errorClosed := chan_eqb c ChError || errorClosed w;
           doneClosed := chan_eqb c ChDone || doneClosed w;
           trace := trace w ++ [Closed c] |}.

(** [os.Remove(path)], its error ignored; the path names no file afterwards. *)
Definition os_Remove (path : string) : Task unit :=
  fun w =>
    Returned unit tt
      {| files := filter (fun p => negb (String.eqb p path)) (files w);
         progressClosed := progressClosed w; errorClosed := errorClosed w;
         doneClosed := doneClosed w;
         trace := trace w ++ [Removed path] |}.

(** [f.command.Cancel()]. *)
Definition command_Cancel : Task unit :=
  fun w => Returned unit tt (record Killed w).

End Run.

Arguments message : clear implicits.
Arguments event : clear implicits.
Arguments World : clear implicits.
Arguments Task : clear implicits.
Arguments outcome : clear implicits.
Arguments Returned {Progress A} a w.
Arguments Panicked {Progress A} w.
Arguments Blocked {Progress A} w.

Declare Scope task_scope.
Delimit Scope task_scope with task.
Notation "x <- t ;; k" := (andThen t (fun x => k))
  (at level 100, t at next level, right associativity) : task_scope.
Notation "t ;; k" := (andThen t (fun _ => k))
  (at level 100, right associativity) : task_scope.

(** The world a run starts in: the channels open, nothing has happened. *)
Definition fresh {Progress : Type} (paths : list string) : World Progress :=
  {| files := paths; progressClosed := false; errorClosed := false;
     doneClosed := false; trace := [] |}.

Definition all_open {Progress : Type} (w : World Progress) : Prop :=
  forall c, closed w c = false.

Definition all_closed {Progress : Type} (w : World Progress) : Prop :=
  forall c, closed w c = true.

(** ** src/ffmpeg.go, lines 1-269: sends that do not block *)

Module NonBlocking.

Section Orchestrator.

Context {Progress : Type}.
Variable zeroProgress : Progress.
Variable newProgress :
  time_Time -> string -> time_Duration -> time_Time -> string -> string ->
  result Progress.

Local Open Scope task_scope.

Definition cleanUp (f : Ffmpeg) (e : Sched) : Task Progress unit :=
  (if ctxDone e then
     os_Remove (outputFile f) ;;
     _ <- trySend (recvDone e) (MDone false) ;;
     ret tt
   else
     sent <- trySend (recvDone e) (MDone true) ;;
     if sent : bool then
       _ <- trySend (recvProgress e) (MProgress zeroProgress) ;;
       ret tt
     else ret tt) ;;
  close ChProgress ;;
  close ChError ;;
  close ChDone.

(** The goroutine of [Start]. [input] is what the successive calls of
    [ReadString] return before the one that fails, which happens under
    [eof]. *)
Fixpoint reader (f : Ffmpeg) (input : list (string * Sched)) (eof : Sched)
    : Task Progress unit :=
  match input with
  | [] => cleanUp f eof
  | (line, e) :: rest =>
      match newProgress (now e) line (duration f) (startTime f)
              (inputFile f) (outputFile f) with
      | Err err =>
          if negb (errors_Is err ErrNoProgressInformation) then
            _ <- trySend (recvError e) (MError err) ;;
            command_Cancel ;;
            cleanUp f e
          else reader f rest eof
      | Ok progress =>
          _ <- trySend (recvProgress e) (MProgress progress) ;;
          reader f rest eof
      end
  end.

End Orchestrator.

End NonBlocking.

(** ** src/ffmpeg.go, lines 270-497: sends that block *)

Module Blocking.

Section Orchestrator.

Context {Progress : Type}.
Variable newProgress :
  time_Time -> string -> time_Duration -> time_Time -> string -> string ->
  result Progress.

Local Open Scope task_scope.

Definition cleanUp (f : Ffmpeg) (e : Sched) : Task Progress unit :=
  close ChProgress ;;
  (if ctxDone e then os_Remove (outputFile f) else ret tt) ;;
  close ChError ;;
  send (recvDone e) (MDone false) ;;
  close ChDone.

Fixpoint reader (f : Ffmpeg) (input : list (string * Sched)) (eof : Sched)
    : Task Progress unit :=
  match input with
  | [] => cleanUp f eof
  | (line, e) :: rest =>
      match newProgress (now e) line (duration f) (startTime f)
              (inputFile f) (outputFile f) with
      | Err err =>
          (if negb (errors_Is err ErrNoProgressInformation)
           then send (recvError e) (MError err)
           else ret tt) ;;
          reader f rest eof
      | Ok progress =>
          send (recvProgress e) (MProgress progress) ;;
          reader f rest eof
      end
  end.

End Orchestrator.

End Blocking.

(** ** What the statements below are about *)

(** The event of a non-blocking send, by whether a consumer is receiving. *)
Definition offer {Progress : Type} (ready : bool) (m : message Progress)
    : event Progress :=
  if ready then Received m else Dropped m.

Definition is_close {Progress : Type} (c : chan) (ev : event Progress) : bool :=
  match ev with
  | Closed c' => chan_eqb c c'
  | _ => false
  end.

(** A send on the completion channel, received or not. *)
Definition is_report {Progress : Type} (ev : event Progress) : bool :=
  match ev with
  | Received (MDone _) | Dropped (MDone _) => true
  | _ => false
  end.

Definition is_removal {Progress : Type} (ev : event Progress) : bool :=
  match ev with
  | Removed _ => true
  | _ => false
  end.

Definition count {Progress : Type} (p : event Progress -> bool)
    (tr : list (event Progress)) : nat :=
  List.length (filter p tr).

(** The events of one call of the first revision's [cleanUp] on open
    channels, in order. *)
Definition cleanUp_events {Progress : Type} (zeroProgress : Progress)
    (f : Ffmpeg) (e : Sched) : list (event Progress) :=
  (if ctxDone e then
     [Removed (outputFile f); offer (recvDone e) (MDone false)]
   else if recvDone e then
     [Received (MDone true); offer (recvProgress e) (MProgress zeroProgress)]
   else [Dropped (MDone true)])
  ++ [Closed ChProgress; Closed ChError; Closed ChDone].

(** The zero of [float64], of either sign. *)
Definition is_zero (f : float64) : bool := feqb f (S754_zero false).

(** [float64(elapsed) / float64(total) * 100], the percent complete before
    any clamp. *)
Definition percent_of (elapsed total : time_Duration) : float64 :=
  fmul (fdiv (float64_of_int elapsed) (float64_of_int total)) (float64_of_int 100).

(** The literal [0.01]. *)
Definition epsilon : float64 := float64_of_decimal false 1 (-2).

(** Lines of the examples. The first is the scenario of the specification,
    which has no [dup] and no [drop]. *)
Definition line_scenario : string :=
  "frame=  100 fps= 25 q=28.0 size=    2048KiB time=00:00:10.00 bitrate= 512.0kbit/s speed=1.02x".

Definition line_fraction : string :=
  "frame=  100 fps= 25 q=28.0 size=    2048KiB time=01:02:03.50 bitrate= 512.0kbit/s dup=0 drop=0 speed=1.02x".

Definition line_start : string :=
  "frame=    1 fps=0.0 q=0.0 size=       0KiB time=00:00:00.00 bitrate=   0.0kbit/s dup=0 drop=0 speed=   1x".

Definition line_not_available : string :=
  "frame=  100 fps= 25 q=28.0 size=    2048KiB time=00:00:10.00 bitrate=N/A dup=0 drop=0 speed=N/A".

Definition line_progress : string :=
  "frame=  100 fps= 25 q=28.0 size=    2048KiB time=00:00:10.00 bitrate= 512.0kbit/s dup=0 drop=0 speed=1.02x".

Definition line_malformed : string :=
  "frame=abc fps=25 q=28.0 size=2048KiB time=00:00:10.00 bitrate=512.0kbit/s dup=0 drop=0 speed=1.02x".

Definition line_speed_not_available : string :=
  "frame=  100 fps= 25 q=28.0 size=    2048KiB time=00:00:10.00 bitrate= 512.0kbit/s dup=0 drop=0 speed=N/A".

Definition line_banner : string := "Press [q] to stop, [?] for help".

(** A run of a source of one hundred seconds, started at the zero time. *)
Definition run100 : Ffmpeg :=
  {| inputFile := "in.mkv"; outputFile := "out.mp4";
     duration := 100 * Second; startTime := 0 |}.

Definition disk : list string := ["in.mkv"; "out.mp4"].

(** Five seconds into the run, every consumer receiving. *)
Definition listening : Sched :=
  {| now := 5 * Second; ctxDone := false; recvProgress := true;
     recvError := true; recvDone := true |}.

(** The same with the context cancelled. *)
Definition cancelled : Sched :=
  {| now := 5 * Second; ctxDone := true; recvProgress := true;
     recvError := true; recvDone := true |}.

(** The same with no consumer at all. *)
Definition unattended : Sched :=
  {| now := 5 * Second; ctxDone := false; recvProgress := false;
     recvError := false; recvDone := false |}.

(** What [line_progress] parses to, five seconds into [run100]. *)
Definition progress_at_5s : Fixed.Progress :=
  {| Fixed.InputFile := "in.mkv"; Fixed.OutputFile := "out.mp4";
     Fixed.Frame := 100;
     Fixed.FPS := float64_of_int 25;
     Fixed.Q := float64_of_int 28;
     Fixed.Size := float64_of_int 2048;
     Fixed.Time := 10 * Second;
     Fixed.Bitrate := float64_of_int 512;
     Fixed.Dup := 0; Fixed.Drop := 0;
     Fixed.Speed := float64_of_decimal false 102 (-2);
     Fixed.PercentComplete := float64_of_int 10;
     Fixed.TimeRemaining := 45 * Second;
     Fixed.EstimatedFinishTime := 50 * Second |}.

(** ** What the further statements about the parser are about *)

(** The seven names the name-scanning revision looks for. *)
Definition scanned_names : list string :=
  ["frame"; "fps"; "q"; "size"; "time"; "bitrate"; "speed"].

(** The position of the last of [fields] equal to [name], counting from
    [i]. *)
Fixpoint last_index (name : string) (fields : list string) (i : nat)
    : option nat :=
  match fields with
  | [] => None
  | field :: rest =>
      match last_index name rest (S i) with
      | Some j => Some j
      | None => if String.eqb field name then Some i else None
      end
  end.

(** One past a position, or zero when there is none. *)
Definition after (position : option nat) : nat :=
  match position with
  | Some j => (j + 1)%nat
  | None => 0%nat
  end.

(** Neither an infinity nor a NaN. *)
Definition is_finite (f : float64) : bool :=
  match f with
  | S754_finite _ _ _ | S754_zero _ => true
  | _ => false
  end.

Definition line_time_not_available : string :=
  "frame=    0 fps=0.0 q=0.0 size=       0KiB time=N/A bitrate=N/A speed=N/A".

Definition line_time_not_available_long : string :=
  "frame=    0 fps=0.0 q=0.0 size=       0KiB time=N/A bitrate=N/A dup=0 drop=0 speed=N/A".

Definition line_no_speed : string :=
  "frame=  100 fps= 25 q=28.0 size=    2048KiB time=00:00:10.00 bitrate= 512.0kbit/s".

Definition line_twice : string :=
  "frame=  100 fps= 25 q=28.0 size=    2048KiB time=00:00:10.00 bitrate= 512.0kbit/s speed=1.02x frame=7".

(** The trimmed tokens of a line, and the indexes the loop of the
    name-scanning revision leaves. *)
Definition scan_fields `{GoLib} (line : string) : list string :=
  map strings_TrimSpace (FieldsFunc line fieldsFunc).

Definition scan_indexes `{GoLib} (line : string) : Scan.indexes :=
  Scan.loop (FieldsFunc line fieldsFunc) 0 Scan.no_indexes.

(** ** What the further statements about the orchestrator are about *)

Definition is_dropped {Progress : Type} (ev : event Progress) : bool :=
  match ev with
  | Dropped _ => true
  | _ => false
  end.

Definition is_kill {Progress : Type} (ev : event Progress) : bool :=
  match ev with
  | Killed => true
  | _ => false
  end.

(** The world a task ends in, however it ends. *)
Definition outcome_world {Progress A : Type} (o : outcome Progress A)
    : World Progress :=
  match o with
  | Returned _ w | Panicked w | Blocked w => w
  end.

Definition is_blocked {Progress A : Type} (o : outcome Progress A) : bool :=
  match o with
  | Blocked _ => true
  | _ => false
  end.

Section Readers.

Context {Progress : Type}.
Variable newProgress :
  time_Time -> string -> time_Duration -> time_Time -> string -> string ->
  result Progress.
Variable f : Ffmpeg.

(** What [newProgress] makes of one read. *)
Definition parsed (read : string * Sched) : result Progress :=
  newProgress (now (snd read)) (fst read) (duration f) (startTime f)
    (inputFile f) (outputFile f).

(** A read that does not end the first revision's reader: a record, or a
    line that is not a progress line. *)
Definition soft (read : string * Sched) : Prop :=
  match parsed read with
  | Ok _ => True
  | Err err => err = ErrNoProgressInformation
  end.

(** What the first revision's reader does with a soft read. *)
Definition offers (read : string * Sched) : list (event Progress) :=
  match parsed read with
  | Ok progress => [offer (recvProgress (snd read)) (MProgress progress)]
  | Err _ => []
  end.

(** What the second revision's reader sends for a read. *)
Definition deliveries (read : string * Sched) : list (event Progress) :=
  match parsed read with
  | Ok progress => [Received (MProgress progress)]
  | Err err =>
      if errors_Is err ErrNoProgressInformation then []
      else [Received (MError err)]
  end.

(** A read whose message, if it has one, finds a consumer receiving. *)
Definition heard (read : string * Sched) : Prop :=
  match parsed read with
  | Ok _ => recvProgress (snd read) = true
  | Err err => err = ErrNoProgressInformation \/ recvError (snd read) = true
  end.

(** A read whose message finds no consumer receiving. *)
Definition unheard (read : string * Sched) : Prop :=
  match parsed read with
  | Ok _ => recvProgress (snd read) = false
  | Err err => err <> ErrNoProgressInformation /\ recvError (snd read) = false
  end.

(** The events of the second revision's [cleanUp] up to its send on the
    completion channel. *)
Definition cleanUp_closes (e : Sched) : list (event Progress) :=
  [Closed ChProgress]
  ++ (if ctxDone e then [Removed (outputFile f)] else [])
  ++ [Closed ChError].

(** The events of one call of the second revision's [cleanUp] on open
    channels, a consumer receiving the report. *)
Definition cleanUp_deliveries (e : Sched) : list (event Progress) :=
  cleanUp_closes e ++ [Received (MDone false); Closed ChDone].

End Readers.

(** * Wrap-around *)

Lemma wrap64_shift (x k : Z) : wrap64 (x + k * 2 ^ 64) = wrap64 x.
Proof.
  unfold wrap64.
  replace (x + k * 2 ^ 64 + 2 ^ 63) with (x + 2 ^ 63 + k * 2 ^ 64) by lia.
  now rewrite Z.mod_add by lia.
Qed.

Lemma wrap64_spec (x : Z) : exists q, wrap64 x = x + q * 2 ^ 64.
Proof.
  exists (- ((x + 2 ^ 63) / 2 ^ 64)). unfold wrap64.
  pose proof (Z.div_mod (x + 2 ^ 63) (2 ^ 64)). lia.
Qed.

Lemma wrap64_add (a b : Z) : wrap64 (wrap64 a + wrap64 b) = wrap64 (a + b).
Proof.
  destruct (wrap64_spec a) as [qa ->]. destruct (wrap64_spec b) as [qb ->].
  replace (a + qa * 2 ^ 64 + (b + qb * 2 ^ 64)) with (a + b + (qa + qb) * 2 ^ 64)
    by lia.
  apply wrap64_shift.
Qed.

(** * Conversion of integers to float64 *)

Lemma shr_1_m (mrs : shr_record) :
  0 <= shr_m mrs -> shr_m (shr_1 mrs) = shr_m mrs / 2.
Proof.
  destruct mrs as [m r s]. cbn [shr_m]. intros Hm.
  destruct m as [|p|p]; [reflexivity| |lia].
  destruct p; cbn [shr_1 shr_m].
  - rewrite Pos2Z.inj_xI. apply Z.div_unique with (r := 1); lia.
  - rewrite Pos2Z.inj_xO. apply Z.div_unique with (r := 0); lia.
  - reflexivity.
Qed.

Lemma pow2_xO (p : positive) : 2 ^ Zpos p~0 = 2 ^ Zpos p * 2 ^ Zpos p.
Proof.
  rewrite <- Z.pow_add_r by lia. f_equal. lia.
Qed.

Lemma pow2_xI (p : positive) : 2 ^ Zpos p~1 = 2 * (2 ^ Zpos p * 2 ^ Zpos p).
Proof.
  rewrite <- Z.pow_add_r, <- Z.pow_succ_r by lia. f_equal. lia.
Qed.

Lemma iter_shr_1_m (p : positive) :
  forall mrs, 0 <= shr_m mrs ->
    shr_m (iter_pos shr_1 p mrs) = shr_m mrs / 2 ^ Zpos p.
Proof.
  induction p as [p IH|p IH|]; intros mrs Hm; cbn [iter_pos].
  - assert (Hpow : 0 < 2 ^ Zpos p) by (apply Z.pow_pos_nonneg; lia).
    assert (H1 : 0 <= shr_m (shr_1 mrs)).
    { rewrite shr_1_m by exact Hm. apply Z.div_pos; lia. }
    assert (H2 : 0 <= shr_m (iter_pos shr_1 p (shr_1 mrs))).
    { rewrite IH by exact H1. apply Z.div_pos; lia. }
    rewrite IH, IH, shr_1_m by assumption.
    rewrite !Z.div_div by lia.
    now rewrite pow2_xI.
  - assert (Hpow : 0 < 2 ^ Zpos p) by (apply Z.pow_pos_nonneg; lia).
    assert (H2 : 0 <= shr_m (iter_pos shr_1 p mrs)).
    { rewrite IH by exact Hm. apply Z.div_pos; lia. }
    rewrite IH, IH by assumption.
    rewrite !Z.div_div by lia.
    now rewrite pow2_xO.
  - now rewrite shr_1_m.
Qed.

Lemma digits2_pos_size (m : positive) : digits2_pos m = Pos.size m.
Proof.
  induction m; cbn; now rewrite ?IHm.
Qed.

Lemma digits2_pos_le (m : positive) : 2 ^ (Zpos (digits2_pos m) - 1) <= Zpos m.
Proof.
  rewrite digits2_pos_size.
  pose proof (Pos.size_le m) as H.
  apply Pos2Z.pos_le_pos in H. rewrite Pos2Z.inj_pow in H.
  replace (Zpos (Pos.size m)) with (Z.succ (Zpos (Pos.size m) - 1)) in H by lia.
  rewrite Z.pow_succ_r in H by lia. lia.
Qed.

Lemma shr_record_of_loc_m (m : Z) (l : location) :
  shr_m (shr_record_of_loc m l) = m.
Proof.
  destruct l as [|[]]; reflexivity.
Qed.

(** Shifting to the canonical exponent keeps a positive mantissa positive,
    and the exponent it arrives at is at least [emin]. *)
Lemma shr_fexp_positive (m : positive) (e : Z) (l : location) :
  emin prec64 emax64 - e < Zpos (digits2_pos m) ->
  0 < shr_m (fst (shr_fexp prec64 emax64 (Zpos m) e l))
  /\ emin prec64 emax64 <= snd (shr_fexp prec64 emax64 (Zpos m) e l).
Proof.
  intros He. unfold shr_fexp, shr. cbn [Zdigits2].
  set (d := Zpos (digits2_pos m)) in *.
  assert (Hf : fexp prec64 emax64 (d + e) = Z.max (d + e - 53) (emin prec64 emax64))
    by reflexivity.
  assert (Hemin : emin prec64 emax64 = -1074) by reflexivity.
  destruct (fexp prec64 emax64 (d + e) - e) as [|n|n] eqn:En; cbn [fst snd].
  - rewrite shr_record_of_loc_m. lia.
  - rewrite iter_shr_1_m by (rewrite shr_record_of_loc_m; lia).
    rewrite shr_record_of_loc_m. split; [|lia].
    apply Z.div_str_pos. split; [apply Z.pow_pos_nonneg; lia|].
    pose proof (digits2_pos_le m) as Hd. fold d in Hd.
    apply Z.le_trans with (2 ^ (d - 1)); [|exact Hd].
    apply Z.pow_le_mono_r; lia.
  - rewrite shr_record_of_loc_m. lia.
Qed.

Lemma round_nearest_even_positive (m : Z) (l : location) :
  0 < m -> 0 < round_nearest_even m l.
Proof.
  intros Hm. destruct l as [|[]]; cbn; try lia. destruct (Z.even m); lia.
Qed.

Lemma binary_round_aux_number (s : bool) (m : positive) (e : Z) (l : location) :
  emin prec64 emax64 - e < Zpos (digits2_pos m) ->
  is_number (binary_round_aux prec64 emax64 s (Zpos m) e l) = true.
Proof.
  intros He. unfold binary_round_aux.
  destruct (shr_fexp_positive m e l He) as [H1 H2].
  destruct (shr_fexp prec64 emax64 (Zpos m) e l) as [mrs' e'] eqn:E1.
  cbn [fst snd] in H1, H2.
  pose proof (round_nearest_even_positive (shr_m mrs') (loc_of_shr_record mrs') H1) as H3.
  destruct (round_nearest_even (shr_m mrs') (loc_of_shr_record mrs')) as [|m2|m2];
    [lia| |lia].
  assert (He' : emin prec64 emax64 - e' < Zpos (digits2_pos m2)) by lia.
  destruct (shr_fexp_positive m2 e' loc_Exact He') as [H4 _].
  destruct (shr_fexp prec64 emax64 (Zpos m2) e' loc_Exact) as [mrs'' e''].
  cbn [fst] in H4.
  destruct (shr_m mrs'') as [|m3|m3]; [lia| |lia].
  now destruct (e'' <=? emax64 - prec64).
Qed.

Lemma digits2_pos_iter_xO (k m : positive) :
  digits2_pos (Pos.iter xO m k) = (digits2_pos m + k)%positive.
Proof.
  revert m. induction k using Pos.peano_ind; intros m.
  - cbn. lia.
  - rewrite Pos.iter_succ. cbn [digits2_pos]. rewrite IHk. lia.
Qed.

(** An integer other than zero converts to a number other than zero. *)
Lemma float64_of_int_number (i : Z) :
  i <> 0 -> is_number (float64_of_int i) = true.
Proof.
  intros Hi. unfold float64_of_int, binary_normalize.
  assert (Hemin : emin prec64 emax64 = -1074) by reflexivity.
  assert (Hround : forall s m, is_number (binary_round prec64 emax64 s m 0) = true).
  { intros s m. unfold binary_round, shl_align.
    assert (Hf : fexp prec64 emax64 (Zpos (digits2_pos m) + 0)
                 = Z.max (Zpos (digits2_pos m) + 0 - 53) (emin prec64 emax64))
      by reflexivity.
    destruct (fexp prec64 emax64 (Zpos (digits2_pos m) + 0) - 0) as [|k|k] eqn:Ek.
    - apply binary_round_aux_number. lia.
    - apply binary_round_aux_number. lia.
    - apply binary_round_aux_number. rewrite digits2_pos_iter_xO. lia. }
  destruct i; [contradiction| |]; apply Hround.
Qed.

(** With no time elapsed and a total other than zero, the quotient is a
    zero. *)
Lemma percent_of_nothing (total : time_Duration) :
  total <> 0 -> is_zero (percent_of 0 total) = true.
Proof.
  intros Htotal. unfold percent_of.
  pose proof (float64_of_int_number total Htotal) as Hnumber.
  destruct (float64_of_int total) as [| | |s m e]; try discriminate; reflexivity.
Qed.

(** * The parser *)

(** Steps through the conversions of [newProgress] one call at a time. *)
Ltac step_parse :=
  match goal with
  | |- context [or_err ?o _] => destruct o; cbn [bind or_err]
  | |- context [bind (parseTime ?s) _] => destruct (parseTime s); cbn [bind]
  | |- context [if ?b then _ else _] => destruct b; cbn [bind]
  end.

Section Parser.

Context `{GoLib}.

Variables (line : string) (total : time_Duration) (start : time_Time).
Variables (input output : string).

Lemma Fixed_skips_other_lines (clock : time_Time) :
  HasPrefix line "frame=" = false ->
  Fixed.newProgress clock line total start input output
  = Err ErrNoProgressInformation.
Proof.
  intros Hprefix. unfold Fixed.newProgress. now rewrite Hprefix.
Qed.

Lemma Scan_skips_other_lines (clock : time_Time) :
  HasPrefix line "frame=" = false ->
  Scan.newProgress clock line total start input output
  = Err ErrNoProgressInformation.
Proof.
  intros Hprefix. unfold Scan.newProgress. now rewrite Hprefix.
Qed.

Lemma Fixed_clock_only (clock1 clock2 : time_Time) :
  Fixed.same_up_to_clock
    (Fixed.newProgress clock1 line total start input output)
    (Fixed.newProgress clock2 line total start input output).
Proof.
  unfold Fixed.newProgress.
  repeat (step_parse; try reflexivity).
  cbn. repeat split.
Qed.

Lemma Scan_clock_only (clock1 clock2 : time_Time) :
  Scan.same_up_to_clock
    (Scan.newProgress clock1 line total start input output)
    (Scan.newProgress clock2 line total start input output).
Proof.
  unfold Scan.newProgress.
  repeat (step_parse; try reflexivity); cbn; repeat split.
Qed.

(** The time field fails in one way only. *)
Lemma parseTime_fails_with_ErrTime (field : string) (e : error) :
  parseTime field = Err e -> e = ErrTime.
Proof.
  unfold parseTime.
  repeat (step_parse; try congruence).
Qed.

(** The shared expression counts whole seconds: the seconds enter it as an
    integer. *)
Lemma timeThroughFile_whole (hours minutes : Z) (seconds : float64) :
  timeThroughFile_of hours minutes seconds
  = wrap64 ((hours * 3600 + minutes * 60 + int64_of_float64 seconds) * Second).
Proof.
  unfold timeThroughFile_of.
  rewrite (wrap64_add (hours * Hour) (minutes * Minute)), wrap64_add. f_equal.
  unfold Hour, Minute, Second, Nanosecond. lia.
Qed.

Lemma parseTime_whole (field : string) (t : time_Duration) :
  parseTime field = Ok t -> exists n : Z, t = wrap64 (n * Second).
Proof.
  unfold parseTime.
  repeat (step_parse; try discriminate).
  intros Ht. injection Ht as <-. eexists. apply timeThroughFile_whole.
Qed.

Lemma Fixed_time_whole (clock : time_Time) (p : Fixed.Progress) :
  Fixed.newProgress clock line total start input output = Ok p ->
  exists n : Z, Fixed.Time p = wrap64 (n * Second).
Proof.
  unfold Fixed.newProgress.
  destruct (negb (HasPrefix line "frame=")); [discriminate|].
  destruct (negb (Nat.eqb (List.length (FieldsFunc line fieldsFunc)) 18));
    [discriminate|].
  destruct (parseTime (index (FieldsFunc line fieldsFunc) Fixed.TimeIndex))
    as [t|] eqn:Ht;
    repeat (step_parse; try discriminate).
  intros Hp. inversion Hp. cbn [Fixed.Time].
  exact (parseTime_whole _ t Ht).
Qed.

Lemma Scan_time_whole (clock : time_Time) (p : Scan.Progress) :
  Scan.newProgress clock line total start input output = Ok p ->
  exists n : Z, Scan.Time p = wrap64 (n * Second).
Proof.
  unfold Scan.newProgress.
  destruct (negb (HasPrefix line "frame=")); [discriminate|].
  repeat match goal with
         | |- context [if Scan.located ?fs ?i then _ else _] =>
             destruct (Scan.located fs i); cbn [bind]; [|discriminate]
         | |- context [if String.eqb ?a ?b then _ else _] =>
             destruct (String.eqb a b); cbn [bind]
         | |- context [or_err ?o _] =>
             destruct o; cbn [bind or_err]; [|discriminate]
         | |- context [bind (parseTime ?s) _] =>
             let E := fresh "Ht" in
             destruct (parseTime s) eqn:E; cbn [bind]; [|discriminate]
         end;
    intros Hp; inversion Hp; cbn [Scan.Time];
    first [ now exists 0
          | match goal with Ht : parseTime _ = Ok ?t |- _ =>
              exact (parseTime_whole _ t Ht) end ].
Qed.

(** What the fixed-position revision stores as percent complete, which is
    also what it divides by: the quotient as it is. *)
Lemma Fixed_percent (clock : time_Time) (p : Fixed.Progress) :
  Fixed.newProgress clock line total start input output = Ok p ->
  Fixed.PercentComplete p = percent_of (Fixed.Time p) total
  /\ Fixed.TimeRemaining p
     = int64_of_float64
         (fmul (fdiv (float64_of_int (time_Since clock start))
                     (Fixed.PercentComplete p))
               (fsub (float64_of_int 100) (Fixed.PercentComplete p))).
Proof.
  unfold Fixed.newProgress.
  repeat (step_parse; try discriminate).
  intros Hp; inversion Hp; split; reflexivity.
Qed.

(** What the name-scanning revision stores as percent complete, which is
    also what it divides by. *)
Lemma Scan_percent (clock : time_Time) (p : Scan.Progress) :
  Scan.newProgress clock line total start input output = Ok p ->
  Scan.PercentComplete p
  = if is_zero (percent_of (Scan.Time p) total) then epsilon
    else percent_of (Scan.Time p) total.
Proof.
  unfold Scan.newProgress.
  destruct (negb (HasPrefix line "frame=")); [discriminate|].
  repeat match goal with
         | |- context [if Scan.located ?fs ?i then _ else _] =>
             destruct (Scan.located fs i); cbn [bind]; [|discriminate]
         | |- context [if String.eqb ?a ?b then _ else _] =>
             destruct (String.eqb a b); cbn [bind]
         | |- context [or_err ?o _] =>
             destruct o; cbn [bind or_err]; [|discriminate]
         | |- context [bind (parseTime ?s) _] =>
             destruct (parseTime s); cbn [bind]; [|discriminate]
         end;
    intros Hp; inversion Hp; reflexivity.
Qed.

(** The clamp of the name-scanning revision: the percent complete of a
    record is never zero, and it is 0.01 whenever the quotient is zero. *)
Lemma Scan_clamps (clock : time_Time) (p : Scan.Progress) :
  Scan.newProgress clock line total start input output = Ok p ->
  is_zero (Scan.PercentComplete p) = false
  /\ (is_zero (percent_of (Scan.Time p) total) = true ->
      Scan.PercentComplete p = epsilon).
Proof.
  intros Hp. rewrite (Scan_percent clock p Hp).
  destruct (is_zero (percent_of (Scan.Time p) total)) eqn:E.
  - split; reflexivity.
  - split; [exact E|discriminate].
Qed.

(** [N/A] in the name-scanning revision: a located bitrate or speed that is
    the token [N/A] is zero in the record and is never the failure of its
    field. *)
Lemma Scan_not_available (clock : time_Time) :
  let split := FieldsFunc line fieldsFunc in
  let fields := map strings_TrimSpace split in
  let ix := Scan.loop split 0 Scan.no_indexes in
  (Scan.located fields (Scan.bitrateIndex ix) = true ->
   index fields (Scan.bitrateIndex ix) = "N/A" ->
   Scan.newProgress clock line total start input output <> Err ErrBitrate
   /\ forall p, Scan.newProgress clock line total start input output = Ok p ->
                Scan.Bitrate p = S754_zero false)
  /\ (Scan.located fields (Scan.speedIndex ix) = true ->
      index fields (Scan.speedIndex ix) = "N/A" ->
      Scan.newProgress clock line total start input output <> Err ErrSpeed
      /\ forall p, Scan.newProgress clock line total start input output = Ok p ->
                   Scan.Speed p = S754_zero false).
Proof.
  intros split fields ix. unfold Scan.newProgress. fold split. fold ix. fold fields.
  split; intros Hlocated Htoken; rewrite ?Hlocated, ?Htoken; cbn [String.eqb].
  - destruct (negb (HasPrefix line "frame=")); [split; [discriminate|intros; discriminate]|].
    repeat match goal with
           | |- context [if Scan.located ?fs ?i then _ else _] =>
               destruct (Scan.located fs i); cbn [bind];
               [|split; [discriminate|intros; discriminate]]
           | |- context [if String.eqb ?a ?b then _ else _] =>
               destruct (String.eqb a b); cbn [bind]
           | |- context [or_err ?o _] =>
               destruct o; cbn [bind or_err];
               [|split; [discriminate|intros; discriminate]]
           | |- context [bind (parseTime ?s) _] =>
               let E := fresh "E" in
               destruct (parseTime s) eqn:E; cbn [bind];
               [|apply parseTime_fails_with_ErrTime in E; subst;
                 split; [discriminate|intros; discriminate]]
           end;
      (split; [discriminate|intros p Hp; injection Hp as <-; reflexivity]).
  - destruct (negb (HasPrefix line "frame=")); [split; [discriminate|intros; discriminate]|].
    repeat match goal with
           | |- context [if Scan.located ?fs ?i then _ else _] =>
               destruct (Scan.located fs i); cbn [bind];
               [|split; [discriminate|intros; discriminate]]
           | |- context [if String.eqb ?a ?b then _ else _] =>
               destruct (String.eqb a b); cbn [bind]
           | |- context [or_err ?o _] =>
               destruct o; cbn [bind or_err];
               [|split; [discriminate|intros; discriminate]]
           | |- context [bind (parseTime ?s) _] =>
               let E := fresh "E" in
               destruct (parseTime s) eqn:E; cbn [bind];
               [|apply parseTime_fails_with_ErrTime in E; subst;
                 split; [discriminate|intros; discriminate]]
           end;
      (split; [discriminate|intros p Hp; injection Hp as <-; reflexivity]).
Qed.

End Parser.

(** * The first revision of the orchestrator *)

Lemma removed_path_is_gone (path : string) (paths : list string) :
  existsb (String.eqb path)
    (filter (fun p => negb (String.eqb p path)) paths) = false.
Proof.
  induction paths as [|p paths IH]; cbn; [reflexivity|].
  destruct (String.eqb p path) eqn:E; cbn; [exact IH|].
  rewrite String.eqb_sym, E. exact IH.
Qed.

Lemma count_app {Progress : Type} (p : event Progress -> bool)
    (tr1 tr2 : list (event Progress)) :
  count p (tr1 ++ tr2) = (count p tr1 + count p tr2)%nat.
Proof.
  unfold count. now rewrite filter_app, length_app.
Qed.

Section NonBlockingFacts.

Context {Progress : Type}.
Variable zeroProgress : Progress.
Variable newProgress :
  time_Time -> string -> time_Duration -> time_Time -> string -> string ->
  result Progress.

Local Abbreviation cleanUp := (NonBlocking.cleanUp zeroProgress).
Local Abbreviation reader := (NonBlocking.reader zeroProgress newProgress).

(** Called on open channels, [cleanUp] returns; it has closed the three
    channels and done exactly [cleanUp_events]. *)
Lemma cleanUp_on_open (f : Ffmpeg) (e : Sched) (w : World Progress) :
  all_open w ->
  exists w',
    cleanUp f e w = Returned tt w'
    /\ trace w' = trace w ++ cleanUp_events zeroProgress f e
    /\ all_closed w'
    /\ files w' = (if ctxDone e
                   then filter (fun p => negb (String.eqb p (outputFile f))) (files w)
                   else files w).
Proof.
  intros Hopen.
  pose proof (Hopen ChProgress) as Hp.
  pose proof (Hopen ChError) as He.
  pose proof (Hopen ChDone) as Hd.
  destruct w as [fs cp ce cd tr]. cbn in Hp, He, Hd. subst cp ce cd.
  unfold NonBlocking.cleanUp, cleanUp_events, andThen, trySend, os_Remove,
    close, ret, offer, record.
  destruct (ctxDone e), (recvDone e), (recvProgress e); cbn;
    (eexists; split; [reflexivity|]); cbn;
    rewrite <- ?app_assoc; cbn;
    (split; [reflexivity|]); (split; [|reflexivity]);
    intros []; reflexivity.
Qed.

(** A line that is not a progress line costs the reader nothing. *)
Lemma reader_skips (f : Ffmpeg) (line : string) (e : Sched)
    (rest : list (string * Sched)) (eof : Sched) (w : World Progress) :
  newProgress (now e) line (duration f) (startTime f) (inputFile f) (outputFile f)
  = Err ErrNoProgressInformation ->
  reader f ((line, e) :: rest) eof w = reader f rest eof w.
Proof.
  intros Hparse. cbn [NonBlocking.reader]. now rewrite Hparse.
Qed.

(** A hard parse failure: the error is offered, the command is cancelled and
    [cleanUp] ends the task, whatever input is left. *)
Lemma reader_fails (f : Ffmpeg) (line : string) (e : Sched)
    (rest : list (string * Sched)) (eof : Sched) (w : World Progress)
    (err : error) :
  newProgress (now e) line (duration f) (startTime f) (inputFile f) (outputFile f)
  = Err err ->
  err <> ErrNoProgressInformation ->
  all_open w ->
  reader f ((line, e) :: rest) eof w
  = cleanUp f e (record Killed (record (offer (recvError e) (MError err)) w)).
Proof.
  intros Hparse Hhard Hopen. cbn [NonBlocking.reader]. rewrite Hparse.
  unfold errors_Is. destruct (error_eq_dec err ErrNoProgressInformation) as [E|_];
    [contradiction|].
  cbn [negb]. unfold andThen, trySend, command_Cancel, offer.
  cbn [chan_of]. rewrite (Hopen ChError).
  now destruct (recvError e).
Qed.

(** From open channels the reader returns, and all it did to the channels and
    to the disk before its one call of [cleanUp] is to offer messages on the
    progress and error channels. *)
Lemma reader_returns (f : Ffmpeg) (input : list (string * Sched)) (eof : Sched) :
  forall w : World Progress,
    all_open w ->
    exists (w' : World Progress) (before : list (event Progress)) (e : Sched),
      reader f input eof w = Returned tt w'
      /\ trace w' = trace w ++ before ++ cleanUp_events zeroProgress f e
      /\ all_closed w'
      /\ (forall c, count (is_close c) before = 0%nat)
      /\ count is_report before = 0%nat
      /\ count is_removal before = 0%nat.
Proof.
  induction input as [|[line e] rest IH]; intros w Hopen.
  - destruct (cleanUp_on_open f eof w Hopen) as (w' & Hrun & Htrace & Hclosed & _).
    exists w', [], eof. cbn [NonBlocking.reader app]. repeat split; auto.
  - destruct (newProgress (now e) line (duration f) (startTime f) (inputFile f)
                (outputFile f)) as [progress|err] eqn:Hparse.
    + cbn [NonBlocking.reader]. rewrite Hparse.
      unfold andThen at 1. unfold trySend. cbn [chan_of]. rewrite (Hopen ChProgress).
      set (w1 := record (offer (recvProgress e) (MProgress progress)) w).
      assert (Hopen1 : all_open w1) by (intros c; apply Hopen).
      destruct (IH w1 Hopen1) as (w' & before & e' & Hrun & Htrace & Hclosed & Hc & Hr & Hm).
      exists w', (offer (recvProgress e) (MProgress progress) :: before), e'.
      split.
      { subst w1. unfold offer in *. destruct (recvProgress e); exact Hrun. }
      split.
      { rewrite Htrace. subst w1. cbn. now rewrite <- app_assoc. }
      split; [exact Hclosed|].
      unfold offer. repeat split.
      * intros c. specialize (Hc c). unfold count in *.
        destruct (recvProgress e); cbn; exact Hc.
      * unfold count in *. destruct (recvProgress e); cbn; exact Hr.
      * unfold count in *. destruct (recvProgress e); cbn; exact Hm.
    + destruct (error_eq_dec err ErrNoProgressInformation) as [E|Hhard].
      * subst err. rewrite (reader_skips f line e rest eof w Hparse).
        exact (IH w Hopen).
      * rewrite (reader_fails f line e rest eof w err Hparse Hhard Hopen).
        set (w1 := record Killed (record (offer (recvError e) (MError err)) w)).
        assert (Hopen1 : all_open w1) by (intros c; apply Hopen).
        destruct (cleanUp_on_open f e w1 Hopen1) as (w' & Hrun & Htrace & Hclosed & _).
        exists w', [offer (recvError e) (MError err); Killed], e.
        split; [exact Hrun|]. split.
        { rewrite Htrace. subst w1. cbn. now rewrite <- !app_assoc. }
        split; [exact Hclosed|].
        unfold offer, count. destruct (recvError e); cbn; repeat split; auto.
Qed.

End NonBlockingFacts.

(** * The claims about the parser *)

(** C1 (the fixed-position revision breaks it). Whenever the fixed-position
    [newProgress] returns a record with no elapsed media time, for a total
    duration other than zero, the percent complete it has divided by is
    zero: no epsilon is substituted. *)
Theorem fixed_newProgress_divides_by_zero {L : GoLib} (clock : time_Time)
    (line : string) (total : time_Duration) (start : time_Time)
    (input output : string) (p : Fixed.Progress) :
  Fixed.newProgress clock line total start input output = Ok p ->
  Fixed.Time p = 0 ->
  total <> 0 ->
  is_zero (Fixed.PercentComplete p) = true
  /\ Fixed.TimeRemaining p
     = int64_of_float64
         (fmul (fdiv (float64_of_int (time_Since clock start))
                     (Fixed.PercentComplete p))
               (fsub (float64_of_int 100) (Fixed.PercentComplete p))).
Proof.
  intros Hp Helapsed Htotal.
  destruct (Fixed_percent line total start input output clock p Hp)
    as [Hpercent Hremaining].
  split; [|exact Hremaining].
  rewrite Hpercent, Helapsed. now apply percent_of_nothing.
Qed.

(** The first sample of a run, [time=00:00:00.00], five seconds in: the
    quotient of the time taken by the percent complete is infinite, and the
    time remaining is what the platform converts an infinity to. *)
Lemma fixed_newProgress_divides_by_zero_witness :
  exists p : Fixed.Progress,
    Fixed.newProgress (5 * Second) line_start (100 * Second) 0 "in.mkv" "out.mp4"
    = Ok p
    /\ Fixed.Time p = 0
    /\ is_zero (Fixed.PercentComplete p) = true
    /\ fdiv (float64_of_int (time_Since (5 * Second) 0)) (Fixed.PercentComplete p)
       = S754_infinity false
    /\ Fixed.TimeRemaining p = minInt64.
Proof.
  destruct (Fixed.newProgress (5 * Second) line_start (100 * Second) 0
              "in.mkv" "out.mp4") as [p|err] eqn:Hp;
    [|vm_compute in Hp; discriminate].
  assert (Hrecord : Fixed.Time p = 0
                    /\ Fixed.PercentComplete p = S754_zero false).
  { pose proof Hp as Hq. vm_compute in Hq. injection Hq as <-. split; reflexivity. }
  destruct Hrecord as [Helapsed Hpercent].
  destruct (fixed_newProgress_divides_by_zero (L := RefLib) _ _ _ _ _ _ p Hp
              Helapsed) as [Hzero Hremaining]; [discriminate|].
  exists p. split; [reflexivity|]. split; [exact Helapsed|].
  split; [exact Hzero|]. rewrite Hremaining, Hpercent. split; reflexivity.
Defined.

(** C2 (the code breaks it). In both revisions the elapsed media time of
    every record is a whole number of seconds (wrapped to 64 bits): the
    seconds of the time field are converted to an integer before they are
    multiplied by [time.Second], so their fraction is lost. *)
Theorem newProgress_truncates_the_seconds {L : GoLib} (clock : time_Time)
    (line : string) (total : time_Duration) (start : time_Time)
    (input output : string) :
  (forall p, Fixed.newProgress clock line total start input output = Ok p ->
             exists n : Z, Fixed.Time p = wrap64 (n * Second))
  /\ (forall q, Scan.newProgress clock line total start input output = Ok q ->
                exists n : Z, Scan.Time q = wrap64 (n * Second)).
Proof.
  split; intros p Hp.
  - exact (Fixed_time_whole line total start input output clock p Hp).
  - exact (Scan_time_whole line total start input output clock p Hp).
Qed.

(** A time field of [01:02:03.50] parses to one hour, two minutes and three
    seconds in both revisions, half a second short. *)
Lemma newProgress_truncates_the_seconds_witness :
  exists (p : Fixed.Progress) (q : Scan.Progress),
    Fixed.newProgress (5 * Second) line_fraction (100 * Second) 0 "in.mkv" "out.mp4"
    = Ok p
    /\ Scan.newProgress (5 * Second) line_fraction (100 * Second) 0 "in.mkv" "out.mp4"
       = Ok q
    /\ (exists n : Z, Fixed.Time p = wrap64 (n * Second))
    /\ (exists n : Z, Scan.Time q = wrap64 (n * Second))
    /\ Fixed.Time p = 1 * Hour + 2 * Minute + 3 * Second
    /\ Scan.Time q = 1 * Hour + 2 * Minute + 3 * Second
    /\ Fixed.Time p <> 1 * Hour + 2 * Minute + 3 * Second + Second / 2.
Proof.
  destruct (Fixed.newProgress (5 * Second) line_fraction (100 * Second) 0
              "in.mkv" "out.mp4") as [p|err] eqn:Hp;
    [|vm_compute in Hp; discriminate].
  destruct (Scan.newProgress (5 * Second) line_fraction (100 * Second) 0
              "in.mkv" "out.mp4") as [q|err] eqn:Hq;
    [|vm_compute in Hq; discriminate].
  destruct (newProgress_truncates_the_seconds (L := RefLib) (5 * Second)
              line_fraction (100 * Second) 0 "in.mkv" "out.mp4")
    as [Hfixed Hscan].
  exists p, q. split; [reflexivity|]. split; [reflexivity|].
  split; [exact (Hfixed p Hp)|]. split; [exact (Hscan q Hq)|].
  pose proof Hp as Hp'. pose proof Hq as Hq'.
  vm_compute in Hp', Hq'. injection Hp' as <-. injection Hq' as <-.
  split; [reflexivity|]. split; [reflexivity|]. vm_compute. discriminate.
Defined.

(** C6 (the fixed-position revision breaks it). The fixed-position
    [newProgress] has no case for [N/A]: no suffix is trimmed from the token,
    [strconv.ParseFloat] does not read it, and a line whose bitrate or speed
    is [N/A] never yields a record. *)
Theorem fixed_newProgress_rejects_not_available {L : GoLib} (clock : time_Time)
    (line : string) (total : time_Duration) (start : time_Time)
    (input output : string) :
  strconv_ParseFloat "N/A" = None ->
  index (FieldsFunc line fieldsFunc) Fixed.BitrateIndex = "N/A"
  \/ index (FieldsFunc line fieldsFunc) Fixed.SpeedIndex = "N/A" ->
  forall p, Fixed.newProgress clock line total start input output <> Ok p.
Proof.
  intros Hfloat Htoken p. unfold Fixed.newProgress.
  destruct (negb (HasPrefix line "frame=")); [discriminate|].
  destruct (negb (Nat.eqb (List.length (FieldsFunc line fieldsFunc)) 18));
    [discriminate|].
  destruct Htoken as [Htoken|Htoken]; rewrite Htoken;
    cbn [TrimRight mem_byte Ascii.eqb Bool.eqb orb]; rewrite Hfloat;
    repeat (step_parse; try discriminate).
Qed.

(** A bitrate of [N/A] is the bitrate failure, a speed of [N/A] the speed
    failure. *)
Lemma fixed_newProgress_rejects_not_available_witness :
  strconv_ParseFloat "N/A" = None
  /\ index (FieldsFunc line_not_available fieldsFunc) Fixed.BitrateIndex = "N/A"
  /\ index (FieldsFunc line_speed_not_available fieldsFunc) Fixed.SpeedIndex = "N/A"
  /\ Fixed.newProgress (5 * Second) line_not_available (100 * Second) 0
       "in.mkv" "out.mp4" = Err ErrBitrate
  /\ Fixed.newProgress (5 * Second) line_speed_not_available (100 * Second) 0
       "in.mkv" "out.mp4" = Err ErrSpeed.
Proof.
  assert (Hfloat : strconv_ParseFloat "N/A" = None) by reflexivity.
  assert (Hbitrate : index (FieldsFunc line_not_available fieldsFunc)
                       Fixed.BitrateIndex = "N/A") by reflexivity.
  assert (Hspeed : index (FieldsFunc line_speed_not_available fieldsFunc)
                     Fixed.SpeedIndex = "N/A") by reflexivity.
  split; [exact Hfloat|]. split; [exact Hbitrate|]. split; [exact Hspeed|].
  split.
  - destruct (Fixed.newProgress (5 * Second) line_not_available (100 * Second) 0
                "in.mkv" "out.mp4") as [p|err] eqn:Hp.
    + exfalso.
      exact (fixed_newProgress_rejects_not_available (L := RefLib) _ _ _ _ _ _
               Hfloat (or_introl Hbitrate) p Hp).
    + vm_compute in Hp. now injection Hp as <-.
  - destruct (Fixed.newProgress (5 * Second) line_speed_not_available
                (100 * Second) 0 "in.mkv" "out.mp4") as [p|err] eqn:Hp.
    + exfalso.
      exact (fixed_newProgress_rejects_not_available (L := RefLib) _ _ _ _ _ _
               Hfloat (or_intror Hspeed) p Hp).
    + vm_compute in Hp. now injection Hp as <-.
Defined.

(** C7. A line that does not begin with [frame=] makes [newProgress], in
    both revisions, return [ErrNoProgressInformation], so no other failure
    and no record; the reader of the first revision of [Start] then goes on
    to the next read without any effect. *)
Theorem other_lines_are_skipped {L : GoLib} (line : string) :
  HasPrefix line "frame=" = false ->
  (forall clock total start input output,
      Fixed.newProgress clock line total start input output
      = Err ErrNoProgressInformation
      /\ Scan.newProgress clock line total start input output
         = Err ErrNoProgressInformation)
  /\ (forall f e rest eof w,
         NonBlocking.reader Fixed.zeroProgress Fixed.newProgress f
           ((line, e) :: rest) eof w
         = NonBlocking.reader Fixed.zeroProgress Fixed.newProgress f rest eof w)
  /\ (forall f e rest eof w,
         NonBlocking.reader Scan.zeroProgress Scan.newProgress f
           ((line, e) :: rest) eof w
         = NonBlocking.reader Scan.zeroProgress Scan.newProgress f rest eof w).
Proof.
  intros Hprefix. split; [|split].
  - intros. split.
    + now apply Fixed_skips_other_lines.
    + now apply Scan_skips_other_lines.
  - intros. apply reader_skips. now apply Fixed_skips_other_lines.
  - intros. apply reader_skips. now apply Scan_skips_other_lines.
Qed.

Lemma other_lines_are_skipped_witness :
  HasPrefix line_banner "frame=" = false
  /\ Fixed.newProgress (5 * Second) line_banner (100 * Second) 0 "in.mkv" "out.mp4"
     = Err ErrNoProgressInformation
  /\ NonBlocking.reader Fixed.zeroProgress Fixed.newProgress run100
       [(line_banner, listening); (line_progress, listening)] listening (fresh disk)
     = NonBlocking.reader Fixed.zeroProgress Fixed.newProgress run100
         [(line_progress, listening)] listening (fresh disk).
Proof.
  assert (Hprefix : HasPrefix line_banner "frame=" = false) by reflexivity.
  destruct (other_lines_are_skipped (L := RefLib) line_banner Hprefix)
    as (Hparse & Hreader & _).
  split; [exact Hprefix|]. split; [apply Hparse | apply Hreader].
Defined.

(** C8. In the fixed-position revision, a line that begins with [frame=]
    and does not split into exactly 18 tokens fails with
    [ErrWrongNumberOfFields]. *)
Theorem wrong_number_of_fields {L : GoLib} (line : string)
    (clock : time_Time) (total : time_Duration) (start : time_Time)
    (input output : string) :
  HasPrefix line "frame=" = true ->
  List.length (FieldsFunc line fieldsFunc) <> 18%nat ->
  Fixed.newProgress clock line total start input output
  = Err ErrWrongNumberOfFields.
Proof.
  intros Hprefix Hcount. unfold Fixed.newProgress. rewrite Hprefix. cbn [negb].
  apply Nat.eqb_neq in Hcount. now rewrite Hcount.
Qed.

(** The scenario line of the specification has no [dup] and no [drop]: it
    splits into 14 tokens and fails the count. *)
Lemma wrong_number_of_fields_witness :
  HasPrefix line_scenario "frame=" = true
  /\ List.length (FieldsFunc line_scenario fieldsFunc) = 14%nat
  /\ Fixed.newProgress (5 * Second) line_scenario (100 * Second) 0
       "in.mkv" "out.mp4" = Err ErrWrongNumberOfFields.
Proof.
  split; [reflexivity|]. split; [reflexivity|].
  apply (wrong_number_of_fields (L := RefLib)); [reflexivity|].
  vm_compute. discriminate.
Defined.

(** C9 (as stated it fails). [newProgress] reads the wall clock: the same
    line and run give a different time remaining and estimated finish time a
    second later. *)
Lemma newProgress_reads_the_clock :
  exists p q : Fixed.Progress,
    Fixed.newProgress (5 * Second) line_progress (100 * Second) 0 "in.mkv" "out.mp4"
    = Ok p
    /\ Fixed.newProgress (6 * Second) line_progress (100 * Second) 0 "in.mkv" "out.mp4"
       = Ok q
    /\ Fixed.TimeRemaining p = 45 * Second
    /\ Fixed.TimeRemaining q = 54 * Second
    /\ Fixed.EstimatedFinishTime p = 50 * Second
    /\ Fixed.EstimatedFinishTime q = 60 * Second.
Proof.
  eexists. eexists.
  split; [vm_compute; reflexivity|].
  split; [vm_compute; reflexivity|].
  cbn [Fixed.TimeRemaining Fixed.EstimatedFinishTime]. repeat split.
Qed.

(** C9, amended. Two calls of [newProgress] with the same line, total
    duration, start time and paths return the same failure, or records that
    agree on every field read from the line and on the percent complete,
    whatever the wall clock reads at either call; only the time remaining and
    the estimated finish time depend on the clock. *)
Theorem newProgress_depends_on_clock_only {L : GoLib} (line : string)
    (total : time_Duration) (start : time_Time) (input output : string)
    (clock1 clock2 : time_Time) :
  Fixed.same_up_to_clock
    (Fixed.newProgress clock1 line total start input output)
    (Fixed.newProgress clock2 line total start input output)
  /\ Scan.same_up_to_clock
       (Scan.newProgress clock1 line total start input output)
       (Scan.newProgress clock2 line total start input output).
Proof.
  split; [apply Fixed_clock_only | apply Scan_clock_only].
Qed.

(** * The claims about the orchestrator *)

Lemma fresh_all_open {Progress : Type} (paths : list string) :
  all_open (fresh (Progress := Progress) paths).
Proof.
  intros c. now destruct c.
Qed.

Lemma cleanUp_events_counts {Progress : Type} (zeroProgress : Progress)
    (f : Ffmpeg) (e : Sched) :
  (forall c, count (is_close c) (cleanUp_events zeroProgress f e) = 1%nat)
  /\ count is_report (cleanUp_events zeroProgress f e) = 1%nat
  /\ (count is_removal (cleanUp_events zeroProgress f e) <= 1)%nat.
Proof.
  unfold cleanUp_events, offer, count.
  destruct (ctxDone e), (recvDone e), (recvProgress e); cbn;
    (split; [intros []; reflexivity|]); split; auto.
Qed.

(** Once the completion channel is closed, [cleanUp] panics: both of its
    branches send on that channel before anything is closed. *)
Lemma cleanUp_after_close {Progress : Type} (zeroProgress : Progress)
    (f : Ffmpeg) (e : Sched) (w : World Progress) :
  closed w ChDone = true ->
  exists w', NonBlocking.cleanUp zeroProgress f e w = Panicked w'.
Proof.
  intros Hclosed. destruct w as [fs cp ce cd tr]. cbn in Hclosed. subst cd.
  unfold NonBlocking.cleanUp, andThen, trySend, os_Remove.
  destruct (ctxDone e); cbn; eexists; reflexivity.
Qed.

(** C3 (as stated it fails). The second revision of [Start] sends the
    failure with a blocking send and reads on: after the malformed line the
    next progress line is parsed and delivered, and the command is never
    cancelled. With no consumer the reader blocks on the send. *)
Lemma blocking_reader_reads_on :
  (exists w' : World Fixed.Progress,
      Blocking.reader Fixed.newProgress run100
        [(line_malformed, listening); (line_progress, listening)] listening
        (fresh disk) = Returned tt w'
      /\ trace w'
         = [Received (MError ErrFrameNumber); Received (MProgress progress_at_5s);
            Closed ChProgress; Closed ChError; Received (MDone false);
            Closed ChDone])
  /\ Blocking.reader Fixed.newProgress run100
       [(line_malformed, unattended); (line_progress, listening)] listening
       (fresh disk) = Blocked (fresh disk).
Proof.
  split; [eexists; split|]; vm_compute; reflexivity.
Qed.

(** C3, amended: in the first revision of [Start]. A parse failure other
    than [ErrNoProgressInformation] is offered on the error channel without
    blocking (received if a consumer is receiving, dropped otherwise), the
    command is cancelled, [cleanUp] runs and the reader returns: nothing of
    the remaining input is read. *)
Theorem parse_failure_is_fatal {Progress : Type} (zeroProgress : Progress)
    (newProgress : time_Time -> string -> time_Duration -> time_Time ->
                   string -> string -> result Progress)
    (f : Ffmpeg) (line : string) (e : Sched) (rest : list (string * Sched))
    (eof : Sched) (w : World Progress) (err : error) :
  all_open w ->
  newProgress (now e) line (duration f) (startTime f) (inputFile f) (outputFile f)
  = Err err ->
  err <> ErrNoProgressInformation ->
  exists w',
    NonBlocking.reader zeroProgress newProgress f ((line, e) :: rest) eof w
    = Returned tt w'
    /\ trace w'
       = trace w ++ [offer (recvError e) (MError err); Killed]
           ++ cleanUp_events zeroProgress f e
    /\ all_closed w'.
Proof.
  intros Hopen Hparse Hhard.
  rewrite (reader_fails zeroProgress newProgress f line e rest eof w err
             Hparse Hhard Hopen).
  set (w1 := record Killed (record (offer (recvError e) (MError err)) w)).
  assert (Hopen1 : all_open w1) by (intros c; apply Hopen).
  destruct (cleanUp_on_open zeroProgress f e w1 Hopen1)
    as (w' & Hrun & Htrace & Hclosed & _).
  exists w'. split; [exact Hrun|]. split; [|exact Hclosed].
  rewrite Htrace. subst w1. cbn. now rewrite <- !app_assoc.
Qed.

Lemma parse_failure_is_fatal_witness :
  exists w' : World Fixed.Progress,
    NonBlocking.reader Fixed.zeroProgress Fixed.newProgress run100
      [(line_malformed, listening); (line_progress, listening)] listening
      (fresh disk) = Returned tt w'
    /\ trace w'
       = [Received (MError ErrFrameNumber); Killed; Received (MDone true);
          Received (MProgress Fixed.zeroProgress);
          Closed ChProgress; Closed ChError; Closed ChDone]
    /\ all_closed w'.
Proof.
  apply (parse_failure_is_fatal Fixed.zeroProgress Fixed.newProgress run100
           line_malformed listening [(line_progress, listening)] listening
           (fresh disk) ErrFrameNumber).
  - apply fresh_all_open.
  - vm_compute. reflexivity.
  - discriminate.
Defined.

(** C4. Called on open channels, [cleanUp] of the first revision returns
    with the three channels closed. If the context is cancelled it has
    removed the destination, which names no file afterwards ([os.Remove] is
    taken to succeed), and sent [false] on the completion channel; otherwise
    it has left the disk alone and sent [true]. The send is the non-blocking
    one of the code: received if a consumer is receiving, dropped
    otherwise. *)
Theorem cleanUp_reports_and_closes {Progress : Type} (zeroProgress : Progress)
    (f : Ffmpeg) (e : Sched) (w : World Progress) :
  all_open w ->
  exists w',
    NonBlocking.cleanUp zeroProgress f e w = Returned tt w'
    /\ all_closed w'
    /\ (ctxDone e = true ->
        exists_ w' (outputFile f) = false
        /\ trace w'
           = trace w ++ [Removed (outputFile f); offer (recvDone e) (MDone false);
                         Closed ChProgress; Closed ChError; Closed ChDone])
    /\ (ctxDone e = false ->
        files w' = files w
        /\ trace w'
           = trace w ++ offer (recvDone e) (MDone true)
               :: (if recvDone e
                   then [offer (recvProgress e) (MProgress zeroProgress)]
                   else [])
               ++ [Closed ChProgress; Closed ChError; Closed ChDone]).
Proof.
  intros Hopen.
  destruct (cleanUp_on_open zeroProgress f e w Hopen)
    as (w' & Hrun & Htrace & Hclosed & Hfiles).
  exists w'. split; [exact Hrun|]. split; [exact Hclosed|].
  unfold cleanUp_events in Htrace. split; intros Hctx; rewrite Hctx in *.
  - split; [|exact Htrace].
    unfold exists_. rewrite Hfiles. apply removed_path_is_gone.
  - split; [exact Hfiles|].
    rewrite Htrace. unfold offer. now destruct (recvDone e).
Qed.

Lemma cleanUp_reports_and_closes_witness :
  exists w' : World Fixed.Progress,
    NonBlocking.cleanUp Fixed.zeroProgress run100 cancelled (fresh disk)
    = Returned tt w'
    /\ all_closed w'
    /\ exists_ w' "out.mp4" = false
    /\ trace w'
       = [Removed "out.mp4"; Received (MDone false);
          Closed ChProgress; Closed ChError; Closed ChDone].
Proof.
  destruct (cleanUp_reports_and_closes Fixed.zeroProgress run100 cancelled
              (fresh disk) (fresh_all_open disk))
    as (w' & Hrun & Hclosed & Hcancelled & _).
  exists w'. split; [exact Hrun|]. split; [exact Hclosed|].
  exact (Hcancelled eq_refl).
Defined.

(** C5 (as stated it fails). [cleanUp] is not idempotent: called again after
    a cancelled run it removes the destination a second time and then panics
    on the send to the closed completion channel; after a completed run it
    panics at once. *)
Lemma cleanUp_twice_panics :
  exists w1 w2 w3 w4 : World Fixed.Progress,
    NonBlocking.cleanUp Fixed.zeroProgress run100 cancelled (fresh disk)
    = Returned tt w1
    /\ NonBlocking.cleanUp Fixed.zeroProgress run100 cancelled w1 = Panicked w2
    /\ trace w2 = trace w1 ++ [Removed "out.mp4"]
    /\ NonBlocking.cleanUp Fixed.zeroProgress run100 listening (fresh disk)
       = Returned tt w3
    /\ NonBlocking.cleanUp Fixed.zeroProgress run100 listening w3 = Panicked w4.
Proof.
  do 4 eexists.
  split; [vm_compute; reflexivity|].
  split; [vm_compute; reflexivity|].
  split; [reflexivity|].
  split; vm_compute; reflexivity.
Qed.

(** C5, amended. [cleanUp] has no guard of its own and a second call on the
    same run panics. Its effects happen once per run because the reader, its
    only caller, calls it exactly once and returns: whatever the input, the
    reader returns with every channel closed exactly once, exactly one send
    on the completion channel and at most one removal of the destination. *)
Theorem reader_cleans_up_once {Progress : Type} (zeroProgress : Progress)
    (newProgress : time_Time -> string -> time_Duration -> time_Time ->
                   string -> string -> result Progress)
    (f : Ffmpeg) (input : list (string * Sched)) (eof : Sched)
    (paths : list string) :
  exists w',
    NonBlocking.reader zeroProgress newProgress f input eof (fresh paths)
    = Returned tt w'
    /\ all_closed w'
    /\ (forall c, count (is_close c) (trace w') = 1%nat)
    /\ count is_report (trace w') = 1%nat
    /\ (count is_removal (trace w') <= 1)%nat
    /\ (forall e, exists w'',
           NonBlocking.cleanUp zeroProgress f e w' = Panicked w'').
Proof.
  destruct (reader_returns zeroProgress newProgress f input eof (fresh paths))
    as (w' & before & e & Hrun & Htrace & Hclosed & Hc & Hr & Hm).
  { apply fresh_all_open. }
  destruct (cleanUp_events_counts zeroProgress f e) as (Hc' & Hr' & Hm').
  exists w'. split; [exact Hrun|]. split; [exact Hclosed|].
  cbn [fresh trace app] in Htrace. rewrite Htrace.
  repeat split.
  - intros c. now rewrite count_app, Hc, Hc'.
  - now rewrite count_app, Hr, Hr'.
  - now rewrite count_app, Hm.
  - intros e'. apply cleanUp_after_close. apply Hclosed.
Qed.

(** C10. When the context is not cancelled, [cleanUp] of the first revision
    offers [true] on the completion channel without blocking. If a consumer
    received it, it then offers the zero [Progress] on the progress channel,
    again without blocking, and only then closes that channel; if nobody
    received it, [true] is dropped and no progress record is sent at all. *)
Theorem cleanUp_sends_a_zero_progress (f : Ffmpeg) (e : Sched)
    (w : World Fixed.Progress) :
  all_open w ->
  ctxDone e = false ->
  exists w',
    NonBlocking.cleanUp Fixed.zeroProgress f e w = Returned tt w'
    /\ trace w'
       = trace w
           ++ (if recvDone e then
                 [Received (MDone true);
                  if recvProgress e
                  then Received (MProgress Fixed.zeroProgress)
                  else Dropped (MProgress Fixed.zeroProgress)]
               else [Dropped (MDone true)])
           ++ [Closed ChProgress; Closed ChError; Closed ChDone].
Proof.
  intros Hopen Hctx.
  destruct (cleanUp_on_open Fixed.zeroProgress f e w Hopen)
    as (w' & Hrun & Htrace & _).
  exists w'. split; [exact Hrun|].
  rewrite Htrace. unfold cleanUp_events, offer. rewrite Hctx.
  now destruct (recvDone e), (recvProgress e).
Qed.

Lemma cleanUp_sends_a_zero_progress_witness :
  exists w' : World Fixed.Progress,
    NonBlocking.cleanUp Fixed.zeroProgress run100 listening (fresh disk)
    = Returned tt w'
    /\ trace w'
       = [Received (MDone true); Received (MProgress Fixed.zeroProgress);
          Closed ChProgress; Closed ChError; Closed ChDone].
Proof.
  exact (cleanUp_sends_a_zero_progress run100 listening (fresh disk)
           (fresh_all_open disk) eq_refl).
Defined.

(** * More about the name-scanning revision *)

(** X1: the clamp of the name-scanning revision (what C1 asks for). The percent
    complete of a record, which is the divisor of the time remaining, is
    never zero; when the elapsed media time is zero and the total duration is
    not, it is the literal 0.01. *)
Theorem scan_newProgress_clamps_percent {L : GoLib} (clock : time_Time)
    (line : string) (total : time_Duration) (start : time_Time)
    (input output : string) (p : Scan.Progress) :
  Scan.newProgress clock line total start input output = Ok p ->
  is_zero (Scan.PercentComplete p) = false
  /\ (Scan.Time p = 0 -> total <> 0 -> Scan.PercentComplete p = epsilon).
Proof.
  intros Hp.
  destruct (Scan_clamps line total start input output clock p Hp) as [Hnonzero Hclamp].
  split; [exact Hnonzero|].
  intros Helapsed Htotal. apply Hclamp. rewrite Helapsed.
  now apply percent_of_nothing.
Qed.

Lemma scan_newProgress_clamps_percent_witness :
  exists p : Scan.Progress,
    Scan.newProgress (5 * Second) line_start (100 * Second) 0 "in.mkv" "out.mp4"
    = Ok p
    /\ Scan.Time p = 0
    /\ is_zero (Scan.PercentComplete p) = false
    /\ Scan.PercentComplete p = epsilon.
Proof.
  destruct (Scan.newProgress (5 * Second) line_start (100 * Second) 0
              "in.mkv" "out.mp4") as [p|err] eqn:Hp;
    [|vm_compute in Hp; discriminate].
  assert (Helapsed : Scan.Time p = 0).
  { pose proof Hp as Hq. vm_compute in Hq. now injection Hq as <-. }
  destruct (scan_newProgress_clamps_percent (L := RefLib) _ _ _ _ _ _ p Hp)
    as [Hnonzero Hclamp].
  exists p. split; [reflexivity|]. split; [exact Helapsed|].
  split; [exact Hnonzero|]. apply Hclamp; [exact Helapsed|discriminate].
Defined.

(** X2: [N/A] in the name-scanning revision (what C6 asks for). When the token
    after [bitrate] is [N/A], [newProgress] never fails with [ErrBitrate] and
    every record it returns has a bitrate of zero; the same for [speed]. *)
Theorem scan_newProgress_not_available {L : GoLib} (clock : time_Time)
    (line : string) (total : time_Duration) (start : time_Time)
    (input output : string) :
  let split := FieldsFunc line fieldsFunc in
  let fields := map strings_TrimSpace split in
  let ix := Scan.loop split 0 Scan.no_indexes in
  (Scan.located fields (Scan.bitrateIndex ix) = true ->
   index fields (Scan.bitrateIndex ix) = "N/A" ->
   Scan.newProgress clock line total start input output <> Err ErrBitrate
   /\ forall p, Scan.newProgress clock line total start input output = Ok p ->
                Scan.Bitrate p = S754_zero false)
  /\ (Scan.located fields (Scan.speedIndex ix) = true ->
      index fields (Scan.speedIndex ix) = "N/A" ->
      Scan.newProgress clock line total start input output <> Err ErrSpeed
      /\ forall p, Scan.newProgress clock line total start input output = Ok p ->
                   Scan.Speed p = S754_zero false).
Proof.
  apply Scan_not_available.
Qed.

Lemma scan_newProgress_not_available_witness :
  exists p : Scan.Progress,
    Scan.newProgress (5 * Second) line_not_available (100 * Second) 0
      "in.mkv" "out.mp4" = Ok p
    /\ Scan.Bitrate p = S754_zero false
    /\ Scan.Speed p = S754_zero false.
Proof.
  destruct (Scan.newProgress (5 * Second) line_not_available (100 * Second) 0
              "in.mkv" "out.mp4") as [p|err] eqn:Hp;
    [|vm_compute in Hp; discriminate].
  destruct (scan_newProgress_not_available (L := RefLib) (5 * Second)
              line_not_available (100 * Second) 0 "in.mkv" "out.mp4")
    as [Hbitrate Hspeed].
  exists p. split; [reflexivity|]. split.
  - apply Hbitrate; [reflexivity|reflexivity|exact Hp].
  - apply Hspeed; [reflexivity|reflexivity|exact Hp].
Defined.

(** X3: the scenario of the specification, in the name-scanning revision: the
    line without [dup] and [drop], a total of 100 seconds, read five seconds
    into the run. *)
Theorem scan_newProgress_scenario :
  Scan.newProgress (5 * Second) line_scenario (100 * Second) 0 "in.mkv" "out.mp4"
  = Ok {| Scan.InputFile := "in.mkv"; Scan.OutputFile := "out.mp4";
          Scan.Frame := 100;
          Scan.FPS := float64_of_int 25;
          Scan.Q := float64_of_int 28;
          Scan.Size := float64_of_int 2048;
          Scan.Time := 10 * Second;
          Scan.Bitrate := float64_of_int 512;
          Scan.Speed := float64_of_decimal false 102 (-2);
          Scan.PercentComplete := float64_of_int 10;
          Scan.TimeRemaining := 45 * Second;
          Scan.EstimatedFinishTime := 50 * Second |}.
Proof.
  vm_compute. reflexivity.
Qed.

(** * More about the parser *)

Lemma float64_of_int_100 :
  float64_of_int 100 = S754_finite false 7036874417766400 (-46).
Proof. reflexivity. Qed.

(** With a total of zero the quotient is a NaN or an infinity. *)
Lemma percent_of_zero_total (elapsed : time_Duration) :
  is_finite (percent_of elapsed 0) = false.
Proof.
  unfold percent_of. rewrite float64_of_int_100.
  change (float64_of_int 0) with (S754_zero false).
  destruct (Z.eq_dec elapsed 0) as [->|Helapsed]; [reflexivity|].
  pose proof (float64_of_int_number elapsed Helapsed) as Hnumber.
  destruct (float64_of_int elapsed) as [| | |s m e]; try discriminate; reflexivity.
Qed.

(** Dividing by a percent that is not finite gives a NaN once multiplied by
    what is left of the hundred. *)
Lemma remaining_of_no_percent (taken percent : float64) :
  is_finite percent = false ->
  fmul (fdiv taken percent) (fsub (float64_of_int 100) percent) = S754_nan.
Proof.
  intros Hpercent. rewrite float64_of_int_100.
  destruct percent as [| | |s m e]; try discriminate;
    destruct taken; reflexivity.
Qed.

Lemma wrap64_in_range (z : Z) : in_int64 z = true -> wrap64 z = z.
Proof.
  unfold wrap64, in_int64, minInt64, maxInt64. intros H.
  apply andb_prop in H. destruct H as [H1 H2].
  apply Z.leb_le in H1. apply Z.leb_le in H2.
  rewrite Z.mod_small; lia.
Qed.

Lemma sat64_in_range (z : Z) : in_int64 z = true -> sat64 z = z.
Proof.
  unfold sat64, in_int64, minInt64, maxInt64. intros H.
  apply andb_prop in H. destruct H as [H1 H2].
  apply Z.leb_le in H1. apply Z.leb_le in H2.
  destruct (z <? - 2 ^ 63) eqn:E1; [apply Z.ltb_lt in E1; lia|].
  destruct (2 ^ 63 - 1 <? z) eqn:E2; [apply Z.ltb_lt in E2; lia|].
  reflexivity.
Qed.

Section Records.

Context {L : GoLib}.

Variables (line : string) (total : time_Duration) (start : time_Time).
Variables (input output : string) (clock : time_Time).

(** Everything a record of the fixed-position revision says about the line
    and the run it was made from. *)
Lemma Fixed_inversion (p : Fixed.Progress) :
  Fixed.newProgress clock line total start input output = Ok p ->
  let fields := FieldsFunc line fieldsFunc in
  HasPrefix line "frame=" = true
  /\ List.length fields = 18%nat
  /\ strconv_Atoi (index fields Fixed.FrameIndex) = Some (Fixed.Frame p)
  /\ strconv_ParseFloat (index fields Fixed.FPSIndex) = Some (Fixed.FPS p)
  /\ strconv_ParseFloat (index fields Fixed.QIndex) = Some (Fixed.Q p)
  /\ strconv_ParseFloat (TrimRight (index fields Fixed.SizeIndex) "KiB")
     = Some (Fixed.Size p)
  /\ parseTime (index fields Fixed.TimeIndex) = Ok (Fixed.Time p)
  /\ strconv_ParseFloat (TrimRight (index fields Fixed.BitrateIndex) "kbit/s")
     = Some (Fixed.Bitrate p)
  /\ strconv_Atoi (index fields Fixed.DupIndex) = Some (Fixed.Dup p)
  /\ strconv_Atoi (index fields Fixed.DropIndex) = Some (Fixed.Drop p)
  /\ strconv_ParseFloat (TrimRight (index fields Fixed.SpeedIndex) "x")
     = Some (Fixed.Speed p)
  /\ Fixed.InputFile p = input
  /\ Fixed.OutputFile p = output
  /\ Fixed.PercentComplete p = percent_of (Fixed.Time p) total
  /\ Fixed.TimeRemaining p
     = int64_of_float64
         (fmul (fdiv (float64_of_int (time_Since clock start))
                     (Fixed.PercentComplete p))
               (fsub (float64_of_int 100) (Fixed.PercentComplete p)))
  /\ Fixed.EstimatedFinishTime p
     = Time_Add start (wrap64 (time_Since clock start + Fixed.TimeRemaining p)).
Proof.
  unfold Fixed.newProgress.
  destruct (HasPrefix line "frame=") eqn:Hprefix; [|discriminate]. cbn [negb].
  destruct (Nat.eqb (List.length (FieldsFunc line fieldsFunc)) 18) eqn:Hcount;
    [|discriminate]. cbn [negb].
  apply Nat.eqb_eq in Hcount.
  repeat match goal with
         | |- context [or_err ?o _] =>
             let E := fresh "E" in
             destruct o eqn:E; cbn [bind or_err]; [|discriminate]
         | |- context [bind (parseTime ?s) _] =>
             let E := fresh "E" in
             destruct (parseTime s) eqn:E; cbn [bind]; [|discriminate]
         end.
  intros Hp. inversion Hp. cbn. repeat split; auto.
Qed.

(** The same for the name-scanning revision. *)
Lemma Scan_inversion (p : Scan.Progress) :
  Scan.newProgress clock line total start input output = Ok p ->
  HasPrefix line "frame=" = true
  /\ Scan.located (scan_fields line) (Scan.frameIndex (scan_indexes line)) = true
  /\ strconv_Atoi (index (scan_fields line) (Scan.frameIndex (scan_indexes line)))
     = Some (Scan.Frame p)
  /\ Scan.located (scan_fields line) (Scan.fpsIndex (scan_indexes line)) = true
  /\ strconv_ParseFloat (index (scan_fields line) (Scan.fpsIndex (scan_indexes line)))
     = Some (Scan.FPS p)
  /\ Scan.located (scan_fields line) (Scan.qIndex (scan_indexes line)) = true
  /\ strconv_ParseFloat (index (scan_fields line) (Scan.qIndex (scan_indexes line)))
     = Some (Scan.Q p)
  /\ Scan.located (scan_fields line) (Scan.sizeIndex (scan_indexes line)) = true
  /\ strconv_ParseFloat
       (TrimRight (index (scan_fields line) (Scan.sizeIndex (scan_indexes line)))
          "KiB") = Some (Scan.Size p)
  /\ Scan.located (scan_fields line) (Scan.timeIndex (scan_indexes line)) = true
  /\ (if String.eqb (index (scan_fields line) (Scan.timeIndex (scan_indexes line)))
           "N/A"
      then Scan.Time p = 0
      else parseTime (index (scan_fields line) (Scan.timeIndex (scan_indexes line)))
           = Ok (Scan.Time p))
  /\ Scan.located (scan_fields line) (Scan.bitrateIndex (scan_indexes line)) = true
  /\ (if String.eqb
           (index (scan_fields line) (Scan.bitrateIndex (scan_indexes line))) "N/A"
      then Scan.Bitrate p = S754_zero false
      else strconv_ParseFloat
             (TrimRight
                (index (scan_fields line) (Scan.bitrateIndex (scan_indexes line)))
                "kbit/s") = Some (Scan.Bitrate p))
  /\ Scan.located (scan_fields line) (Scan.speedIndex (scan_indexes line)) = true
  /\ (if String.eqb
           (index (scan_fields line) (Scan.speedIndex (scan_indexes line))) "N/A"
      then Scan.Speed p = S754_zero false
      else strconv_ParseFloat
             (TrimRight
                (index (scan_fields line) (Scan.speedIndex (scan_indexes line)))
                "x") = Some (Scan.Speed p))
  /\ Scan.InputFile p = input
  /\ Scan.OutputFile p = output
  /\ Scan.PercentComplete p
     = (if is_zero (percent_of (Scan.Time p) total) then epsilon
        else percent_of (Scan.Time p) total)
  /\ Scan.TimeRemaining p
     = int64_of_float64
         (fmul (fdiv (float64_of_int (time_Since clock start))
                     (Scan.PercentComplete p))
               (fsub (float64_of_int 100) (Scan.PercentComplete p)))
  /\ Scan.EstimatedFinishTime p
     = Time_Add start (wrap64 (time_Since clock start + Scan.TimeRemaining p)).
Proof.
  unfold Scan.newProgress, scan_fields, scan_indexes.
  destruct (HasPrefix line "frame=") eqn:Hprefix; [|discriminate]. cbn [negb].
  repeat match goal with
         | |- context [if Scan.located ?fs ?i then _ else _] =>
             destruct (Scan.located fs i); cbn [bind]; [|discriminate]
         | |- context [if String.eqb ?a ?b then _ else _] =>
             destruct (String.eqb a b); cbn [bind]
         | |- context [or_err ?o _] =>
             let E := fresh "E" in
             destruct o eqn:E; cbn [bind or_err]; [|discriminate]
         | |- context [bind (parseTime ?s) _] =>
             let E := fresh "E" in
             destruct (parseTime s) eqn:E; cbn [bind]; [|discriminate]
         end;
    intros Hp; inversion Hp; repeat split; auto.
Qed.

(** Why a call of the fixed-position revision failed. *)
Lemma Fixed_failure (e : error) :
  Fixed.newProgress clock line total start input output = Err e ->
  let fields := FieldsFunc line fieldsFunc in
  (e = ErrNoProgressInformation /\ HasPrefix line "frame=" = false)
  \/ (e = ErrWrongNumberOfFields /\ List.length fields <> 18%nat)
  \/ (e = ErrFrameNumber /\ strconv_Atoi (index fields Fixed.FrameIndex) = None)
  \/ (e = ErrFPS /\ strconv_ParseFloat (index fields Fixed.FPSIndex) = None)
  \/ (e = ErrQ /\ strconv_ParseFloat (index fields Fixed.QIndex) = None)
  \/ (e = ErrSize
      /\ strconv_ParseFloat (TrimRight (index fields Fixed.SizeIndex) "KiB") = None)
  \/ (e = ErrTime /\ parseTime (index fields Fixed.TimeIndex) = Err ErrTime)
  \/ (e = ErrBitrate
      /\ strconv_ParseFloat (TrimRight (index fields Fixed.BitrateIndex) "kbit/s")
         = None)
  \/ (e = ErrDup /\ strconv_Atoi (index fields Fixed.DupIndex) = None)
  \/ (e = ErrDrop /\ strconv_Atoi (index fields Fixed.DropIndex) = None)
  \/ (e = ErrSpeed
      /\ strconv_ParseFloat (TrimRight (index fields Fixed.SpeedIndex) "x") = None).
Proof.
  unfold Fixed.newProgress.
  destruct (HasPrefix line "frame=") eqn:Hprefix; cbn [negb];
    [|intros [= <-]; left; now split].
  destruct (Nat.eqb (List.length (FieldsFunc line fieldsFunc)) 18) eqn:Hcount;
    cbn [negb];
    [|intros [= <-]; right; left; split; [reflexivity|now apply Nat.eqb_neq]].
  repeat match goal with
         | |- context [or_err ?o _] =>
             let E := fresh "E" in
             destruct o eqn:E; cbn [bind or_err];
             [|intros [= <-]; tauto]
         | |- context [bind (parseTime ?s) _] =>
             let E := fresh "E" in
             destruct (parseTime s) eqn:E; cbn [bind];
             [|pose proof (parseTime_fails_with_ErrTime _ _ E); subst;
               intros [= <-]; tauto]
         end.
  discriminate.
Qed.

(** Why a call of the name-scanning revision failed. *)
Lemma Scan_failure (e : error) :
  Scan.newProgress clock line total start input output = Err e ->
  (e = ErrNoProgressInformation /\ HasPrefix line "frame=" = false)
  \/ e = ErrFrameNumber \/ e = ErrFPS \/ e = ErrQ \/ e = ErrSize
  \/ (e = ErrTime
      /\ (Scan.located (scan_fields line) (Scan.timeIndex (scan_indexes line))
          = true ->
          String.eqb (index (scan_fields line) (Scan.timeIndex (scan_indexes line)))
            "N/A" = false))
  \/ (e = ErrBitrate
      /\ (Scan.located (scan_fields line) (Scan.bitrateIndex (scan_indexes line))
          = true ->
          String.eqb
            (index (scan_fields line) (Scan.bitrateIndex (scan_indexes line)))
            "N/A" = false))
  \/ (e = ErrSpeed
      /\ (Scan.located (scan_fields line) (Scan.speedIndex (scan_indexes line))
          = true ->
          String.eqb
            (index (scan_fields line) (Scan.speedIndex (scan_indexes line)))
            "N/A" = false)).
Proof.
  unfold Scan.newProgress, scan_fields, scan_indexes.
  destruct (HasPrefix line "frame=") eqn:Hprefix; cbn [negb];
    [|intros [= <-]; left; now split].
  repeat match goal with
         | |- context [if Scan.located ?fs ?i then _ else _] =>
             destruct (Scan.located fs i); cbn [bind];
             [|intros [= <-]; intuition discriminate]
         | |- context [if String.eqb ?a ?b then _ else _] =>
             destruct (String.eqb a b); cbn [bind]
         | |- context [or_err ?o _] =>
             destruct o; cbn [bind or_err];
             [|intros [= <-]; intuition discriminate]
         | |- context [bind (parseTime ?s) _] =>
             let E := fresh "E" in
             destruct (parseTime s) eqn:E; cbn [bind];
             [|pose proof (parseTime_fails_with_ErrTime _ _ E); subst;
               intros [= <-]; intuition discriminate]
         end;
    discriminate.
Qed.

End Records.

(** ** The loop of the name-scanning revision *)

Section Loop.

Context {L : GoLib}.

Ltac switch_case f name :=
  let E := fresh "E" in
  destruct (String.eqb f name) eqn:E;
  [apply String.eqb_eq in E; subst f; reflexivity|].

Ltac switch_cases ix f :=
  destruct ix; unfold Scan.switch;
  switch_case f "frame"; switch_case f "fps"; switch_case f "q";
  switch_case f "size"; switch_case f "time"; switch_case f "bitrate";
  switch_case f "speed"; reflexivity.

Lemma switch_frameIndex (ix : Scan.indexes) (i : nat) (f : string) :
  Scan.frameIndex (Scan.switch ix i f)
  = if String.eqb f "frame" then (i + 1)%nat else Scan.frameIndex ix.
Proof. switch_cases ix f. Qed.

Lemma switch_fpsIndex (ix : Scan.indexes) (i : nat) (f : string) :
  Scan.fpsIndex (Scan.switch ix i f)
  = if String.eqb f "fps" then (i + 1)%nat else Scan.fpsIndex ix.
Proof. switch_cases ix f. Qed.

Lemma switch_qIndex (ix : Scan.indexes) (i : nat) (f : string) :
  Scan.qIndex (Scan.switch ix i f)
  = if String.eqb f "q" then (i + 1)%nat else Scan.qIndex ix.
Proof. switch_cases ix f. Qed.

Lemma switch_sizeIndex (ix : Scan.indexes) (i : nat) (f : string) :
  Scan.sizeIndex (Scan.switch ix i f)
  = if String.eqb f "size" then (i + 1)%nat else Scan.sizeIndex ix.
Proof. switch_cases ix f. Qed.

Lemma switch_timeIndex (ix : Scan.indexes) (i : nat) (f : string) :
  Scan.timeIndex (Scan.switch ix i f)
  = if String.eqb f "time" then (i + 1)%nat else Scan.timeIndex ix.
Proof. switch_cases ix f. Qed.

Lemma switch_bitrateIndex (ix : Scan.indexes) (i : nat) (f : string) :
  Scan.bitrateIndex (Scan.switch ix i f)
  = if String.eqb f "bitrate" then (i + 1)%nat else Scan.bitrateIndex ix.
Proof. switch_cases ix f. Qed.

Lemma switch_speedIndex (ix : Scan.indexes) (i : nat) (f : string) :
  Scan.speedIndex (Scan.switch ix i f)
  = if String.eqb f "speed" then (i + 1)%nat else Scan.speedIndex ix.
Proof. switch_cases ix f. Qed.

(** An index that the [switch] sets for one name alone ends one past the
    last token equal to that name, and stays as it was when there is none. *)
Lemma loop_index (proj : Scan.indexes -> nat) (name : string) :
  (forall ix i f,
      proj (Scan.switch ix i f)
      = if String.eqb f name then (i + 1)%nat else proj ix) ->
  forall fields i ix,
    proj (Scan.loop fields i ix)
    = match last_index name (map strings_TrimSpace fields) i with
      | Some j => (j + 1)%nat
      | None => proj ix
      end.
Proof.
  intros Hswitch. induction fields as [|field rest IH]; intros i ix; cbn;
    [reflexivity|].
  rewrite IH, Hswitch.
  destruct (last_index name (map strings_TrimSpace rest) (S i)); [reflexivity|].
  now destruct (String.eqb (strings_TrimSpace field) name).
Qed.

Lemma scan_index_after (proj : Scan.indexes -> nat) (name : string)
    (line : string) :
  (forall ix i f,
      proj (Scan.switch ix i f)
      = if String.eqb f name then (i + 1)%nat else proj ix) ->
  proj Scan.no_indexes = 0%nat ->
  proj (scan_indexes line) = after (last_index name (scan_fields line) 0).
Proof.
  intros Hswitch Hzero. unfold scan_indexes, scan_fields, after.
  rewrite (loop_index proj name Hswitch), Hzero. reflexivity.
Qed.

Lemma last_index_bounds (name : string) (fields : list string) :
  forall i j, last_index name fields i = Some j ->
              (i <= j < i + List.length fields)%nat
              /\ nth (j - i) fields "" = name.
Proof.
  induction fields as [|field rest IH]; intros i j; cbn; [discriminate|].
  destruct (last_index name rest (S i)) as [k|] eqn:Hrest.
  - intros [= <-]. destruct (IH (S i) k Hrest) as [Hk Hnth].
    split; [lia|]. replace (k - i)%nat with (S (k - S i)) by lia. exact Hnth.
  - destruct (String.eqb field name) eqn:E; [|discriminate].
    intros [= <-]. apply String.eqb_eq in E. split; [lia|].
    now rewrite Nat.sub_diag.
Qed.

Lemma last_index_none (name : string) (fields : list string) :
  forall i, last_index name fields i = None -> ~ In name fields.
Proof.
  induction fields as [|field rest IH]; intros i; cbn; [tauto|].
  destruct (last_index name rest (S i)) eqn:Hrest; [discriminate|].
  destruct (String.eqb field name) eqn:E; [discriminate|].
  intros _ [Hhead|Htail].
  - subst. now rewrite String.eqb_refl in E.
  - exact (IH (S i) Hrest Htail).
Qed.

(** A located index that is one past a last position: there is such a
    position and a token follows it. *)
Lemma located_after (fields : list string) (name : string) :
  Scan.located fields (after (last_index name fields 0)) = true ->
  exists j, last_index name fields 0 = Some j
            /\ (j + 1 < List.length fields)%nat
            /\ nth j fields "" = name.
Proof.
  unfold Scan.located. destruct (last_index name fields 0) as [j|] eqn:Hlast;
    cbn [after]; [|discriminate].
  intros H. apply andb_prop in H. destruct H as [_ H]. apply Nat.ltb_lt in H.
  destruct (last_index_bounds name fields 0 j Hlast) as [_ Hnth].
  rewrite Nat.sub_0_r in Hnth. now exists j.
Qed.

End Loop.

(** ** Properties of the records and of the failures *)

Lemma not_finite_not_zero (f : float64) :
  is_finite f = false -> is_zero f = false.
Proof.
  destruct f as [|[]| |]; try discriminate; reflexivity.
Qed.

Lemma parseTime_three_parts {L : GoLib} (field : string) (t : time_Duration) :
  parseTime field = Ok t -> List.length (Split field ":"%char) = 3%nat.
Proof.
  unfold parseTime.
  destruct (Nat.eqb (List.length (Split field ":"%char)) 3) eqn:E;
    [intros _; now apply Nat.eqb_eq|discriminate].
Qed.

(** X4. A total duration of zero, which the constructor accepts, leaves no
    usable metric: in both revisions the percent complete of every record is
    a NaN or an infinity (the clamp of the name-scanning revision does not
    apply to them) and the time remaining is what the platform converts a
    NaN to. *)
Theorem newProgress_without_total {L : GoLib} (clock : time_Time)
    (line : string) (start : time_Time) (input output : string) :
  (forall p, Fixed.newProgress clock line 0 start input output = Ok p ->
             is_finite (Fixed.PercentComplete p) = false
             /\ Fixed.TimeRemaining p = int64_unrepresentable S754_nan)
  /\ (forall q, Scan.newProgress clock line 0 start input output = Ok q ->
                is_finite (Scan.PercentComplete q) = false
                /\ Scan.TimeRemaining q = int64_unrepresentable S754_nan).
Proof.
  split.
  - intros p Hp.
    destruct (Fixed_inversion line 0 start input output clock p Hp)
      as (_ & _ & _ & _ & _ & _ & _ & _ & _ & _ & _ & _ & _ & Hpercent
          & Hremaining & _).
    assert (Hnone : is_finite (Fixed.PercentComplete p) = false)
      by (rewrite Hpercent; apply percent_of_zero_total).
    split; [exact Hnone|].
    rewrite Hremaining, (remaining_of_no_percent _ _ Hnone). reflexivity.
  - intros q Hq.
    destruct (Scan_inversion line 0 start input output clock q Hq)
      as (_ & _ & _ & _ & _ & _ & _ & _ & _ & _ & _ & _ & _ & _ & _ & _ & _
          & Hpercent & Hremaining & _).
    pose proof (percent_of_zero_total (Scan.Time q)) as Hquotient.
    rewrite (not_finite_not_zero _ Hquotient) in Hpercent.
    assert (Hnone : is_finite (Scan.PercentComplete q) = false)
      by (rewrite Hpercent; exact Hquotient).
    split; [exact Hnone|].
    rewrite Hremaining, (remaining_of_no_percent _ _ Hnone). reflexivity.
Qed.

Lemma newProgress_without_total_witness :
  exists (p : Fixed.Progress) (q : Scan.Progress),
    Fixed.newProgress (5 * Second) line_progress 0 0 "in.mkv" "out.mp4" = Ok p
    /\ Scan.newProgress (5 * Second) line_start 0 0 "in.mkv" "out.mp4" = Ok q
    /\ Fixed.PercentComplete p = S754_infinity false
    /\ Scan.PercentComplete q = S754_nan
    /\ Fixed.TimeRemaining p = minInt64
    /\ Scan.TimeRemaining q = minInt64.
Proof.
  destruct (Fixed.newProgress (5 * Second) line_progress 0 0 "in.mkv" "out.mp4")
    as [p|err] eqn:Hp; [|vm_compute in Hp; discriminate].
  destruct (Scan.newProgress (5 * Second) line_start 0 0 "in.mkv" "out.mp4")
    as [q|err] eqn:Hq; [|vm_compute in Hq; discriminate].
  destruct (newProgress_without_total (L := RefLib) (5 * Second) line_progress 0
              "in.mkv" "out.mp4") as [Hfixed _].
  destruct (newProgress_without_total (L := RefLib) (5 * Second) line_start 0
              "in.mkv" "out.mp4") as [_ Hscan].
  destruct (Hfixed p Hp) as [_ Hp_remaining].
  destruct (Hscan q Hq) as [_ Hq_remaining].
  exists p, q. split; [reflexivity|]. split; [reflexivity|].
  split; [vm_compute in Hp; now injection Hp as <-|].
  split; [vm_compute in Hq; now injection Hq as <-|].
  split; [exact Hp_remaining|exact Hq_remaining].
Defined.

(** X5. In both revisions the estimated finish time of a record is the
    reading of the clock plus the time remaining, as long as the time taken
    and its sum with the time remaining fit in 64 bits. *)
Theorem estimated_finish_is_clock_plus_remaining {L : GoLib}
    (clock : time_Time) (line : string) (total : time_Duration)
    (start : time_Time) (input output : string) :
  in_int64 (clock - start) = true ->
  (forall p, Fixed.newProgress clock line total start input output = Ok p ->
             in_int64 (clock - start + Fixed.TimeRemaining p) = true ->
             Fixed.EstimatedFinishTime p = clock + Fixed.TimeRemaining p)
  /\ (forall q, Scan.newProgress clock line total start input output = Ok q ->
                in_int64 (clock - start + Scan.TimeRemaining q) = true ->
                Scan.EstimatedFinishTime q = clock + Scan.TimeRemaining q).
Proof.
  intros Htaken. split.
  - intros p Hp Hsum.
    destruct (Fixed_inversion line total start input output clock p Hp)
      as (_ & _ & _ & _ & _ & _ & _ & _ & _ & _ & _ & _ & _ & _ & _ & Hfinish).
    rewrite Hfinish. unfold Time_Add, time_Since.
    rewrite (sat64_in_range _ Htaken), (wrap64_in_range _ Hsum). lia.
  - intros q Hq Hsum.
    destruct (Scan_inversion line total start input output clock q Hq)
      as (_ & _ & _ & _ & _ & _ & _ & _ & _ & _ & _ & _ & _ & _ & _ & _ & _
          & _ & _ & Hfinish).
    rewrite Hfinish. unfold Time_Add, time_Since.
    rewrite (sat64_in_range _ Htaken), (wrap64_in_range _ Hsum). lia.
Qed.

Lemma estimated_finish_is_clock_plus_remaining_witness :
  exists (p : Fixed.Progress) (q : Scan.Progress),
    Fixed.newProgress (7 * Second) line_progress (100 * Second) (2 * Second)
      "in.mkv" "out.mp4" = Ok p
    /\ Scan.newProgress (7 * Second) line_scenario (100 * Second) (2 * Second)
         "in.mkv" "out.mp4" = Ok q
    /\ Fixed.TimeRemaining p = 45 * Second
    /\ Fixed.EstimatedFinishTime p = 7 * Second + Fixed.TimeRemaining p
    /\ Scan.EstimatedFinishTime q = 7 * Second + Scan.TimeRemaining q.
Proof.
  destruct (Fixed.newProgress (7 * Second) line_progress (100 * Second)
              (2 * Second) "in.mkv" "out.mp4") as [p|err] eqn:Hp;
    [|vm_compute in Hp; discriminate].
  destruct (Scan.newProgress (7 * Second) line_scenario (100 * Second)
              (2 * Second) "in.mkv" "out.mp4") as [q|err] eqn:Hq;
    [|vm_compute in Hq; discriminate].
  assert (Hp_remaining : Fixed.TimeRemaining p = 45 * Second).
  { pose proof Hp as Hp'. vm_compute in Hp'. now injection Hp' as <-. }
  assert (Hq_remaining : Scan.TimeRemaining q = 45 * Second).
  { pose proof Hq as Hq'. vm_compute in Hq'. now injection Hq' as <-. }
  destruct (estimated_finish_is_clock_plus_remaining (L := RefLib) (7 * Second)
              line_progress (100 * Second) (2 * Second) "in.mkv" "out.mp4"
              eq_refl) as [Hfixed _].
  destruct (estimated_finish_is_clock_plus_remaining (L := RefLib) (7 * Second)
              line_scenario (100 * Second) (2 * Second) "in.mkv" "out.mp4"
              eq_refl) as [_ Hscan].
  exists p, q. split; [reflexivity|]. split; [reflexivity|].
  split; [exact Hp_remaining|]. split.
  - apply (Hfixed p Hp). now rewrite Hp_remaining.
  - apply (Hscan q Hq). now rewrite Hq_remaining.
Defined.

(** X6. In the fixed-position revision a time field that does not split at
    its colons into exactly three parts never yields a record. [N/A], which
    the transcoder prints before it knows the time, is such a field. *)
Theorem fixed_time_needs_three_parts {L : GoLib} (clock : time_Time)
    (line : string) (total : time_Duration) (start : time_Time)
    (input output : string) :
  List.length (Split (index (FieldsFunc line fieldsFunc) Fixed.TimeIndex) ":"%char)
  <> 3%nat ->
  forall p, Fixed.newProgress clock line total start input output <> Ok p.
Proof.
  intros Hparts p Hp.
  destruct (Fixed_inversion line total start input output clock p Hp)
    as (_ & _ & _ & _ & _ & _ & Htime & _).
  exact (Hparts (parseTime_three_parts _ _ Htime)).
Qed.

Lemma fixed_time_needs_three_parts_witness :
  Split (index (FieldsFunc line_time_not_available_long fieldsFunc)
           Fixed.TimeIndex) ":"%char = ["N/A"]
  /\ Fixed.newProgress (5 * Second) line_time_not_available_long (100 * Second)
       0 "in.mkv" "out.mp4" = Err ErrTime.
Proof.
  split; [reflexivity|].
  destruct (Fixed.newProgress (5 * Second) line_time_not_available_long
              (100 * Second) 0 "in.mkv" "out.mp4") as [p|err] eqn:Hp.
  - exfalso.
    refine (fixed_time_needs_three_parts (L := RefLib) _ _ _ _ _ _ _ p Hp).
    vm_compute. discriminate.
  - vm_compute in Hp. now injection Hp as <-.
Defined.

(** X7. In the name-scanning revision a time field [N/A] is no failure: the
    call never fails with [ErrTime], every record has an elapsed media time
    of zero and, for a total other than zero, a percent complete of 0.01. *)
Theorem scan_time_not_available {L : GoLib} (clock : time_Time)
    (line : string) (total : time_Duration) (start : time_Time)
    (input output : string) :
  Scan.located (scan_fields line) (Scan.timeIndex (scan_indexes line)) = true ->
  index (scan_fields line) (Scan.timeIndex (scan_indexes line)) = "N/A" ->
  Scan.newProgress clock line total start input output <> Err ErrTime
  /\ forall p, Scan.newProgress clock line total start input output = Ok p ->
               Scan.Time p = 0
               /\ (total <> 0 -> Scan.PercentComplete p = epsilon).
Proof.
  intros Hlocated Htoken. split.
  - intros Hfail.
    destruct (Scan_failure line total start input output clock ErrTime Hfail)
      as [[He _]|[He|[He|[He|[He|[[_ Hnot]|[[He _]|[He _]]]]]]]];
      try discriminate.
    specialize (Hnot Hlocated). rewrite Htoken in Hnot. discriminate.
  - intros p Hp.
    destruct (Scan_inversion line total start input output clock p Hp)
      as (_ & _ & _ & _ & _ & _ & _ & _ & _ & _ & Htime & _ & _ & _ & _ & _ & _
          & Hpercent & _).
    rewrite Htoken in Htime. cbn in Htime.
    split; [exact Htime|].
    intros Htotal. rewrite Hpercent, Htime, (percent_of_nothing total Htotal).
    reflexivity.
Qed.

Lemma scan_time_not_available_witness :
  exists p : Scan.Progress,
    Scan.newProgress (5 * Second) line_time_not_available (100 * Second) 0
      "in.mkv" "out.mp4" = Ok p
    /\ Scan.Time p = 0
    /\ Scan.PercentComplete p = epsilon.
Proof.
  destruct (Scan.newProgress (5 * Second) line_time_not_available (100 * Second)
              0 "in.mkv" "out.mp4") as [p|err] eqn:Hp;
    [|vm_compute in Hp; discriminate].
  destruct (scan_time_not_available (L := RefLib) (5 * Second)
              line_time_not_available (100 * Second) 0 "in.mkv" "out.mp4"
              eq_refl eq_refl) as [_ Hrecord].
  destruct (Hrecord p Hp) as [Htime Hpercent].
  exists p. split; [reflexivity|]. split; [exact Htime|].
  apply Hpercent. discriminate.
Defined.

(** X8. [newProgress] fails with the parser's sentinels only, and the
    name-scanning revision with fewer of them: it never reports a wrong
    number of fields, nor a failure of [dup] or [drop]. *)
Theorem newProgress_fails_with_parser_errors {L : GoLib} (clock : time_Time)
    (line : string) (total : time_Duration) (start : time_Time)
    (input output : string) (e : error) :
  (Fixed.newProgress clock line total start input output = Err e ->
   In e [ErrNoProgressInformation; ErrWrongNumberOfFields; ErrFrameNumber;
         ErrFPS; ErrQ; ErrSize; ErrTime; ErrBitrate; ErrDup; ErrDrop; ErrSpeed])
  /\ (Scan.newProgress clock line total start input output = Err e ->
      In e [ErrNoProgressInformation; ErrFrameNumber; ErrFPS; ErrQ; ErrSize;
            ErrTime; ErrBitrate; ErrSpeed]).
Proof.
  split; intros Hfail.
  - pose proof (Fixed_failure line total start input output clock e Hfail) as H.
    cbn zeta in H. cbn [In]. intuition auto.
  - pose proof (Scan_failure line total start input output clock e Hfail) as H.
    cbn [In]. intuition auto.
Qed.

Lemma newProgress_fails_with_parser_errors_witness :
  Fixed.newProgress (5 * Second) line_scenario (100 * Second) 0 "in.mkv" "out.mp4"
  = Err ErrWrongNumberOfFields
  /\ Scan.newProgress (5 * Second) line_no_speed (100 * Second) 0
       "in.mkv" "out.mp4" = Err ErrSpeed
  /\ In ErrWrongNumberOfFields
       [ErrNoProgressInformation; ErrWrongNumberOfFields; ErrFrameNumber;
        ErrFPS; ErrQ; ErrSize; ErrTime; ErrBitrate; ErrDup; ErrDrop; ErrSpeed]
  /\ In ErrSpeed
       [ErrNoProgressInformation; ErrFrameNumber; ErrFPS; ErrQ; ErrSize;
        ErrTime; ErrBitrate; ErrSpeed].
Proof.
  assert (Hfixed : Fixed.newProgress (5 * Second) line_scenario (100 * Second) 0
                     "in.mkv" "out.mp4" = Err ErrWrongNumberOfFields)
    by (vm_compute; reflexivity).
  assert (Hscan : Scan.newProgress (5 * Second) line_no_speed (100 * Second) 0
                    "in.mkv" "out.mp4" = Err ErrSpeed)
    by (vm_compute; reflexivity).
  split; [exact Hfixed|]. split; [exact Hscan|]. split.
  - exact (proj1 (newProgress_fails_with_parser_errors (L := RefLib)
                    (5 * Second) line_scenario (100 * Second) 0 "in.mkv"
                    "out.mp4" ErrWrongNumberOfFields) Hfixed).
  - exact (proj2 (newProgress_fails_with_parser_errors (L := RefLib)
                    (5 * Second) line_no_speed (100 * Second) 0 "in.mkv"
                    "out.mp4" ErrSpeed) Hscan).
Defined.

(** X9. The name-scanning revision reads each value after the last token
    equal to its name: a record exists only if each of the seven names occurs
    among the tokens with a token after its last occurrence, and the frame,
    the frames per second and the quality are the conversions of the tokens
    there. *)
Theorem scan_reads_after_the_last_name {L : GoLib} (clock : time_Time)
    (line : string) (total : time_Duration) (start : time_Time)
    (input output : string) (p : Scan.Progress) :
  Scan.newProgress clock line total start input output = Ok p ->
  (forall name, In name scanned_names ->
     exists j, last_index name (scan_fields line) 0 = Some j
               /\ (j + 1 < List.length (scan_fields line))%nat)
  /\ (exists j, last_index "frame" (scan_fields line) 0 = Some j
                /\ strconv_Atoi (index (scan_fields line) (j + 1))
                   = Some (Scan.Frame p))
  /\ (exists j, last_index "fps" (scan_fields line) 0 = Some j
                /\ strconv_ParseFloat (index (scan_fields line) (j + 1))
                   = Some (Scan.FPS p))
  /\ (exists j, last_index "q" (scan_fields line) 0 = Some j
                /\ strconv_ParseFloat (index (scan_fields line) (j + 1))
                   = Some (Scan.Q p)).
Proof.
  intros Hp.
  destruct (Scan_inversion line total start input output clock p Hp)
    as (_ & Lframe & Vframe & Lfps & Vfps & Lq & Vq & Lsize & _ & Ltime & _
        & Lbitrate & _ & Lspeed & _).
  rewrite (scan_index_after Scan.frameIndex "frame" line switch_frameIndex eq_refl)
    in Lframe, Vframe.
  rewrite (scan_index_after Scan.fpsIndex "fps" line switch_fpsIndex eq_refl)
    in Lfps, Vfps.
  rewrite (scan_index_after Scan.qIndex "q" line switch_qIndex eq_refl)
    in Lq, Vq.
  rewrite (scan_index_after Scan.sizeIndex "size" line switch_sizeIndex eq_refl)
    in Lsize.
  rewrite (scan_index_after Scan.timeIndex "time" line switch_timeIndex eq_refl)
    in Ltime.
  rewrite (scan_index_after Scan.bitrateIndex "bitrate" line switch_bitrateIndex
             eq_refl) in Lbitrate.
  rewrite (scan_index_after Scan.speedIndex "speed" line switch_speedIndex
             eq_refl) in Lspeed.
  split; [|split; [|split]].
  - intros name Hname. cbn in Hname.
    destruct Hname as [<-|[<-|[<-|[<-|[<-|[<-|[<-|[]]]]]]]];
      match goal with
      | H : Scan.located _ (after (last_index ?n _ 0)) = true
        |- exists j, last_index ?n _ 0 = Some j /\ _ =>
          destruct (located_after _ _ H) as (j & Hj & Hbound & _);
          exists j; now split
      end.
  - destruct (located_after _ _ Lframe) as (j & Hj & _).
    exists j. split; [exact Hj|]. now rewrite Hj in Vframe.
  - destruct (located_after _ _ Lfps) as (j & Hj & _).
    exists j. split; [exact Hj|]. now rewrite Hj in Vfps.
  - destruct (located_after _ _ Lq) as (j & Hj & _).
    exists j. split; [exact Hj|]. now rewrite Hj in Vq.
Qed.

(** A line that names the frame twice: the second number is the frame. A
    line without [speed] has no record. *)
Lemma scan_reads_after_the_last_name_witness :
  (exists p : Scan.Progress,
      Scan.newProgress (5 * Second) line_twice (100 * Second) 0 "in.mkv" "out.mp4"
      = Ok p
      /\ last_index "frame" (scan_fields line_twice) 0 = Some 14%nat
      /\ Scan.Frame p = 7)
  /\ last_index "speed" (scan_fields line_no_speed) 0 = None
  /\ Scan.newProgress (5 * Second) line_no_speed (100 * Second) 0
       "in.mkv" "out.mp4" = Err ErrSpeed.
Proof.
  split; [|split; [reflexivity|]].
  - destruct (Scan.newProgress (5 * Second) line_twice (100 * Second) 0
                "in.mkv" "out.mp4") as [p|err] eqn:Hp;
      [|vm_compute in Hp; discriminate].
    destruct (scan_reads_after_the_last_name (L := RefLib) _ _ _ _ _ _ p Hp)
      as (_ & (j & Hj & Hframe) & _).
    assert (Hlast : last_index "frame" (scan_fields line_twice) 0 = Some 14%nat)
      by reflexivity.
    rewrite Hlast in Hj. injection Hj as <-.
    exists p. split; [reflexivity|]. split; [exact Hlast|].
    vm_compute in Hframe. injection Hframe as Hframe. symmetry. exact Hframe.
  - destruct (Scan.newProgress (5 * Second) line_no_speed (100 * Second) 0
                "in.mkv" "out.mp4") as [p|err] eqn:Hp.
    + exfalso.
      destruct (scan_reads_after_the_last_name (L := RefLib) _ _ _ _ _ _ p Hp)
        as (Hnames & _).
      destruct (Hnames "speed") as (j & Hj & _); [cbn; tauto|].
      vm_compute in Hj. discriminate.
    + vm_compute in Hp. now injection Hp as <-.
Defined.

(** X10. Within range, the elapsed media time of a time field [h:m:s] is
    [h] hours, [m] minutes and the whole seconds of [s]. *)
Theorem parseTime_in_range {L : GoLib} (field a b c : string)
    (hours minutes : Z) (seconds : float64) (whole : Z) :
  Split field ":"%char = [a; b; c] ->
  strconv_Atoi a = Some hours ->
  strconv_Atoi b = Some minutes ->
  strconv_ParseFloat c = Some seconds ->
  float64_trunc seconds = Some whole ->
  -2000000 <= hours <= 2000000 ->
  -1000000 <= minutes <= 1000000 ->
  -1000000000 <= whole <= 1000000000 ->
  parseTime field = Ok (hours * Hour + minutes * Minute + whole * Second).
Proof.
  intros Hsplit Ha Hb Hc Hwhole Hh Hm Hs.
  unfold parseTime. rewrite Hsplit. cbn [List.length Nat.eqb negb index nth].
  rewrite Ha, Hb, Hc. cbn [bind or_err]. f_equal.
  rewrite timeThroughFile_whole. unfold int64_of_float64. rewrite Hwhole.
  assert (Hin : in_int64 whole = true).
  { unfold in_int64, minInt64, maxInt64.
    apply andb_true_intro. split; apply Z.leb_le; lia. }
  rewrite Hin.
  rewrite wrap64_in_range.
  - unfold Hour, Minute, Second, Nanosecond. lia.
  - unfold in_int64, minInt64, maxInt64, Second, Nanosecond.
    apply andb_true_intro. split; apply Z.leb_le; lia.
Qed.

Lemma parseTime_in_range_witness :
  parseTime "01:02:03.50" = Ok (1 * Hour + 2 * Minute + 3 * Second).
Proof.
  apply (parseTime_in_range (L := RefLib) "01:02:03.50" "01" "02" "03.50"
           1 2 (float64_of_decimal false 35 (-1)) 3);
    first [reflexivity | lia].
Defined.

(** * More about the orchestrator *)

Lemma filter_is_report_cleanUp {Progress : Type} (zeroProgress : Progress)
    (f : Ffmpeg) (e : Sched) :
  filter is_report (cleanUp_events zeroProgress f e)
  = [offer (recvDone e) (MDone (negb (ctxDone e)))].
Proof.
  unfold cleanUp_events, offer.
  destruct (ctxDone e), (recvDone e), (recvProgress e); reflexivity.
Qed.

Section ReaderFacts.

Context {Progress : Type}.
Variable zeroProgress : Progress.
Variable newProgress :
  time_Time -> string -> time_Duration -> time_Time -> string -> string ->
  result Progress.
Variable f : Ffmpeg.

Local Abbreviation cleanUp := (NonBlocking.cleanUp zeroProgress).
Local Abbreviation reader := (NonBlocking.reader zeroProgress newProgress).

Lemma cleanUp_is_not_blocked (e : Sched) (w : World Progress) :
  is_blocked (cleanUp f e w) = false.
Proof.
  destruct w as [fs cp ce cd tr].
  unfold NonBlocking.cleanUp, andThen, trySend, os_Remove, close, ret.
  destruct cp, ce, cd, (ctxDone e), (recvDone e), (recvProgress e); reflexivity.
Qed.

Lemma reader_is_not_blocked (input : list (string * Sched)) (eof : Sched) :
  forall w, is_blocked (reader f input eof w) = false.
Proof.
  induction input as [|[line e] rest IH]; intros w; cbn [NonBlocking.reader].
  - apply cleanUp_is_not_blocked.
  - destruct (newProgress (now e) line (duration f) (startTime f) (inputFile f)
                (outputFile f)) as [progress|err].
    + unfold andThen at 1. unfold trySend. cbn [chan_of closed].
      destruct (progressClosed w); [reflexivity|].
      destruct (recvProgress e); apply IH.
    + destruct (negb (errors_Is err ErrNoProgressInformation)); [|apply IH].
      unfold andThen at 1. unfold trySend. cbn [chan_of closed].
      destruct (errorClosed w); [reflexivity|].
      destruct (recvError e); unfold andThen at 1; unfold command_Cancel;
        apply cleanUp_is_not_blocked.
Qed.

(** The reader on reads that are all soft: each record is offered, in the
    order of the reads, and [cleanUp] runs when the read fails. *)
Lemma reader_on_soft (input : list (string * Sched)) (eof : Sched) :
  Forall (soft newProgress f) input ->
  forall w, all_open w ->
    exists w',
      reader f input eof w = Returned tt w'
      /\ trace w'
         = trace w ++ flat_map (offers newProgress f) input
             ++ cleanUp_events zeroProgress f eof
      /\ all_closed w'
      /\ files w'
         = (if ctxDone eof
            then filter (fun p => negb (String.eqb p (outputFile f))) (files w)
            else files w).
Proof.
  induction input as [|[line e] rest IH]; intros Hsoft w Hopen.
  - destruct (cleanUp_on_open zeroProgress f eof w Hopen)
      as (w' & Hrun & Htrace & Hclosed & Hfiles).
    exists w'. cbn [flat_map app]. now repeat split.
  - inversion Hsoft as [|read reads Hread Hrest]; subst.
    unfold soft, parsed in Hread. cbn [fst snd] in Hread.
    cbn [NonBlocking.reader flat_map]. unfold offers at 1, parsed.
    cbn [fst snd].
    destruct (newProgress (now e) line (duration f) (startTime f) (inputFile f)
                (outputFile f)) as [progress|err].
    + unfold andThen at 1. unfold trySend. cbn [chan_of].
      rewrite (Hopen ChProgress).
      set (w1 := record (offer (recvProgress e) (MProgress progress)) w).
      assert (Hopen1 : all_open w1) by (intros c; apply Hopen).
      destruct (IH Hrest w1 Hopen1) as (w' & Hrun & Htrace & Hclosed & Hfiles).
      exists w'. split.
      { subst w1. unfold offer in *. destruct (recvProgress e); exact Hrun. }
      split; [|split; [exact Hclosed|exact Hfiles]].
      rewrite Htrace. subst w1. cbn. now rewrite <- !app_assoc.
    + subst err. cbn [errors_Is negb].
      change (errors_Is ErrNoProgressInformation ErrNoProgressInformation)
        with true. cbn [negb app].
      exact (IH Hrest w Hopen).
Qed.

End ReaderFacts.

Section ReaderTheorems.

Context {Progress : Type}.
Variable zeroProgress : Progress.
Variable newProgress :
  time_Time -> string -> time_Duration -> time_Time -> string -> string ->
  result Progress.
Variable f : Ffmpeg.

Local Abbreviation cleanUp := (NonBlocking.cleanUp zeroProgress).
Local Abbreviation reader := (NonBlocking.reader zeroProgress newProgress).

(** Soft reads in front of the input only add their offers. *)
Lemma reader_after_soft (before rest : list (string * Sched)) (eof : Sched) :
  Forall (soft newProgress f) before ->
  forall w, all_open w ->
    exists w1,
      all_open w1
      /\ trace w1 = trace w ++ flat_map (offers newProgress f) before
      /\ files w1 = files w
      /\ reader f (before ++ rest) eof w = reader f rest eof w1.
Proof.
  induction before as [|[line e] before IH]; intros Hsoft w Hopen.
  - exists w. cbn. rewrite app_nil_r. now repeat split.
  - inversion Hsoft as [|read reads Hread Hrest]; subst.
    unfold soft, parsed in Hread. cbn [fst snd] in Hread.
    cbn [NonBlocking.reader flat_map app]. unfold offers at 1, parsed.
    cbn [fst snd].
    destruct (newProgress (now e) line (duration f) (startTime f) (inputFile f)
                (outputFile f)) as [progress|err].
    + unfold andThen at 1. unfold trySend. cbn [chan_of].
      rewrite (Hopen ChProgress).
      set (w1 := record (offer (recvProgress e) (MProgress progress)) w).
      assert (Hopen1 : all_open w1) by (intros c; apply Hopen).
      destruct (IH Hrest w1 Hopen1) as (w2 & Hopen2 & Htrace & Hfiles & Hrun).
      exists w2. split; [exact Hopen2|]. split.
      { rewrite Htrace. subst w1. cbn. now rewrite <- !app_assoc. }
      split; [exact Hfiles|].
      subst w1. unfold offer in *. destruct (recvProgress e); exact Hrun.
    + subst err.
      change (errors_Is ErrNoProgressInformation ErrNoProgressInformation)
        with true. cbn [negb app].
      exact (IH Hrest w Hopen).
Qed.

Lemma offers_are_no_reports (reads : list (string * Sched)) :
  filter is_report (flat_map (offers newProgress f) reads) = [].
Proof.
  induction reads as [|read reads IH]; cbn [flat_map]; [reflexivity|].
  rewrite filter_app, IH, app_nil_r. unfold offers, offer.
  destruct (parsed newProgress f read); [|reflexivity].
  now destruct (recvProgress (snd read)).
Qed.

Lemma reader_at_failure (before rest : list (string * Sched)) (line : string)
    (e eof : Sched) (err : error) (w : World Progress) :
  Forall (soft newProgress f) before ->
  parsed newProgress f (line, e) = Err err ->
  err <> ErrNoProgressInformation ->
  all_open w ->
  exists w',
    reader f (before ++ (line, e) :: rest) eof w = Returned tt w'
    /\ trace w'
       = trace w ++ flat_map (offers newProgress f) before
           ++ [offer (recvError e) (MError err); Killed]
           ++ cleanUp_events zeroProgress f e
    /\ all_closed w'
    /\ files w'
       = (if ctxDone e
          then filter (fun p => negb (String.eqb p (outputFile f))) (files w)
          else files w).
Proof.
  intros Hsoft Hparse Hhard Hopen.
  destruct (reader_after_soft before ((line, e) :: rest) eof Hsoft w Hopen)
    as (w1 & Hopen1 & Htrace1 & Hfiles1 & Hrun1).
  rewrite Hrun1.
  rewrite (reader_fails zeroProgress newProgress f line e rest eof w1 err
             Hparse Hhard Hopen1).
  set (w2 := record Killed (record (offer (recvError e) (MError err)) w1)).
  assert (Hopen2 : all_open w2) by (intros c; apply Hopen1).
  destruct (cleanUp_on_open zeroProgress f e w2 Hopen2)
    as (w' & Hrun & Htrace & Hclosed & Hfiles).
  exists w'. split; [exact Hrun|]. split; [|split; [exact Hclosed|]].
  - rewrite Htrace. subst w2. cbn. rewrite Htrace1. now rewrite <- !app_assoc.
  - rewrite Hfiles. subst w2. cbn. now rewrite Hfiles1.
Qed.

End ReaderTheorems.

(** X11. While no read fails hard, the first revision's reader offers the
    record of every progress line on the progress channel, in the order of
    the reads, skips the other lines, never cancels the command, and runs
    [cleanUp] once, when the read fails. *)
Theorem reader_offers_every_record_in_order {Progress : Type}
    (zeroProgress : Progress)
    (newProgress : time_Time -> string -> time_Duration -> time_Time ->
                   string -> string -> result Progress)
    (f : Ffmpeg) (input : list (string * Sched)) (eof : Sched)
    (w : World Progress) :
  Forall (soft newProgress f) input ->
  all_open w ->
  exists w',
    NonBlocking.reader zeroProgress newProgress f input eof w = Returned tt w'
    /\ trace w'
       = trace w ++ flat_map (offers newProgress f) input
           ++ cleanUp_events zeroProgress f eof
    /\ count is_kill (trace w') = count is_kill (trace w).
Proof.
  intros Hsoft Hopen.
  destruct (reader_on_soft zeroProgress newProgress f input eof Hsoft w Hopen)
    as (w' & Hrun & Htrace & _).
  exists w'. split; [exact Hrun|]. split; [exact Htrace|].
  rewrite Htrace, !count_app.
  assert (Hoffers : count is_kill (flat_map (offers newProgress f) input) = 0%nat).
  { clear. induction input as [|read reads IH]; [reflexivity|].
    cbn [flat_map]. rewrite count_app, IH. unfold offers, offer, count.
    destruct (parsed newProgress f read); [|reflexivity].
    now destruct (recvProgress (snd read)). }
  assert (Hclean : count is_kill (cleanUp_events zeroProgress f eof) = 0%nat).
  { unfold cleanUp_events, offer, count.
    now destruct (ctxDone eof), (recvDone eof), (recvProgress eof). }
  rewrite Hoffers, Hclean. lia.
Qed.

Lemma reader_offers_every_record_in_order_witness :
  exists w' : World Fixed.Progress,
    NonBlocking.reader Fixed.zeroProgress Fixed.newProgress run100
      [(line_banner, listening); (line_progress, unattended);
       (line_progress, listening)] cancelled (fresh disk) = Returned tt w'
    /\ trace w'
       = [Dropped (MProgress progress_at_5s); Received (MProgress progress_at_5s);
          Removed "out.mp4"; Received (MDone false);
          Closed ChProgress; Closed ChError; Closed ChDone].
Proof.
  destruct (reader_offers_every_record_in_order Fixed.zeroProgress
              Fixed.newProgress run100
              [(line_banner, listening); (line_progress, unattended);
               (line_progress, listening)] cancelled (fresh disk))
    as (w' & Hrun & Htrace & _).
  - repeat (apply Forall_cons || apply Forall_nil); vm_compute; auto.
  - apply fresh_all_open.
  - exists w'. split; [exact Hrun|]. rewrite Htrace. vm_compute. reflexivity.
Defined.

(** X12. The first revision's reader stops at the first read that fails
    hard: the records of the reads before it have been offered in order, the
    failure is offered on the error channel, the command is cancelled and
    [cleanUp] runs under the same conditions; what was to be read after it
    has no effect. *)
Theorem reader_stops_at_the_first_failure {Progress : Type}
    (zeroProgress : Progress)
    (newProgress : time_Time -> string -> time_Duration -> time_Time ->
                   string -> string -> result Progress)
    (f : Ffmpeg) (before rest : list (string * Sched)) (line : string)
    (e eof : Sched) (err : error) (w : World Progress) :
  Forall (soft newProgress f) before ->
  parsed newProgress f (line, e) = Err err ->
  err <> ErrNoProgressInformation ->
  all_open w ->
  exists w',
    NonBlocking.reader zeroProgress newProgress f
      (before ++ (line, e) :: rest) eof w = Returned tt w'
    /\ trace w'
       = trace w ++ flat_map (offers newProgress f) before
           ++ [offer (recvError e) (MError err); Killed]
           ++ cleanUp_events zeroProgress f e.
Proof.
  intros Hsoft Hparse Hhard Hopen.
  destruct (reader_at_failure zeroProgress newProgress f before rest line e eof
              err w Hsoft Hparse Hhard Hopen) as (w' & Hrun & Htrace & _).
  now exists w'.
Qed.

Lemma reader_stops_at_the_first_failure_witness :
  exists w' : World Fixed.Progress,
    NonBlocking.reader Fixed.zeroProgress Fixed.newProgress run100
      ([(line_banner, listening); (line_progress, listening)]
       ++ (line_malformed, unattended) :: [(line_progress, listening)])
      listening (fresh disk) = Returned tt w'
    /\ trace w'
       = [Received (MProgress progress_at_5s); Dropped (MError ErrFrameNumber);
          Killed; Dropped (MDone true);
          Closed ChProgress; Closed ChError; Closed ChDone].
Proof.
  destruct (reader_stops_at_the_first_failure Fixed.zeroProgress
              Fixed.newProgress run100
              [(line_banner, listening); (line_progress, listening)]
              [(line_progress, listening)] line_malformed unattended listening
              ErrFrameNumber (fresh disk))
    as (w' & Hrun & Htrace).
  - repeat (apply Forall_cons || apply Forall_nil); vm_compute; auto.
  - vm_compute. reflexivity.
  - discriminate.
  - apply fresh_all_open.
  - exists w'. split; [exact Hrun|]. rewrite Htrace. vm_compute. reflexivity.
Defined.

(** X13. A run that the first revision's reader ends for a parse failure is
    reported like a completed one: unless the context is cancelled as well,
    the one send on the completion channel carries [true] and the
    destination is left on the disk. *)
Theorem failed_run_is_reported_completed {Progress : Type}
    (zeroProgress : Progress)
    (newProgress : time_Time -> string -> time_Duration -> time_Time ->
                   string -> string -> result Progress)
    (f : Ffmpeg) (before rest : list (string * Sched)) (line : string)
    (e eof : Sched) (err : error) (w : World Progress) :
  Forall (soft newProgress f) before ->
  parsed newProgress f (line, e) = Err err ->
  err <> ErrNoProgressInformation ->
  all_open w ->
  ctxDone e = false ->
  exists w',
    NonBlocking.reader zeroProgress newProgress f
      (before ++ (line, e) :: rest) eof w = Returned tt w'
    /\ filter is_report (trace w')
       = filter is_report (trace w) ++ [offer (recvDone e) (MDone true)]
    /\ count is_removal (trace w') = count is_removal (trace w)
    /\ files w' = files w.
Proof.
  intros Hsoft Hparse Hhard Hopen Hctx.
  destruct (reader_at_failure zeroProgress newProgress f before rest line e eof
              err w Hsoft Hparse Hhard Hopen)
    as (w' & Hrun & Htrace & _ & Hfiles).
  rewrite Hctx in Hfiles.
  exists w'. split; [exact Hrun|]. split; [|split; [|exact Hfiles]].
  - rewrite Htrace, !filter_app, offers_are_no_reports,
      filter_is_report_cleanUp, Hctx.
    cbn [app negb]. unfold offer. now destruct (recvError e).
  - rewrite Htrace, !count_app.
    assert (Hoffers : count is_removal (flat_map (offers newProgress f) before)
                      = 0%nat).
    { clear. induction before as [|read reads IH]; [reflexivity|].
      cbn [flat_map]. rewrite count_app, IH. unfold offers, offer, count.
      destruct (parsed newProgress f read); [|reflexivity].
      now destruct (recvProgress (snd read)). }
    rewrite Hoffers. unfold cleanUp_events, offer, count. rewrite Hctx.
    destruct (recvError e), (recvDone e), (recvProgress e); cbn; lia.
Qed.

Lemma failed_run_is_reported_completed_witness :
  exists w' : World Fixed.Progress,
    NonBlocking.reader Fixed.zeroProgress Fixed.newProgress run100
      ([(line_progress, listening)]
       ++ (line_malformed, listening) :: [(line_progress, listening)])
      listening (fresh disk) = Returned tt w'
    /\ filter is_report (trace w') = [Received (MDone true)]
    /\ files w' = disk.
Proof.
  destruct (failed_run_is_reported_completed Fixed.zeroProgress
              Fixed.newProgress run100 [(line_progress, listening)]
              [(line_progress, listening)] line_malformed listening listening
              ErrFrameNumber (fresh disk))
    as (w' & Hrun & Hreport & _ & Hfiles).
  - repeat (apply Forall_cons || apply Forall_nil); vm_compute; auto.
  - vm_compute. reflexivity.
  - discriminate.
  - apply fresh_all_open.
  - reflexivity.
  - exists w'. split; [exact Hrun|]. split; [exact Hreport|exact Hfiles].
Defined.

(** X14. The first revision's reader never blocks, whatever the consumers
    do and whatever state the channels are in: each of its sends, and each of
    [cleanUp], is the non-blocking kind. *)
Theorem reader_never_blocks {Progress : Type} (zeroProgress : Progress)
    (newProgress : time_Time -> string -> time_Duration -> time_Time ->
                   string -> string -> result Progress)
    (f : Ffmpeg) (input : list (string * Sched)) (eof : Sched)
    (w : World Progress) :
  is_blocked (NonBlocking.reader zeroProgress newProgress f input eof w) = false
  /\ is_blocked (NonBlocking.cleanUp zeroProgress f eof w) = false.
Proof.
  split.
  - apply reader_is_not_blocked.
  - apply cleanUp_is_not_blocked.
Qed.

Section BlockingFacts.

Context {Progress : Type}.
Variable newProgress :
  time_Time -> string -> time_Duration -> time_Time -> string -> string ->
  result Progress.
Variable f : Ffmpeg.

Local Abbreviation cleanUp := (@Blocking.cleanUp Progress).
Local Abbreviation reader := (Blocking.reader newProgress).

Lemma Blocking_cleanUp_on_open (e : Sched) (w : World Progress) :
  all_open w ->
  exists w',
    trace w' = trace w ++ cleanUp_closes f e
    /\ files w'
       = (if ctxDone e
          then filter (fun p => negb (String.eqb p (outputFile f))) (files w)
          else files w)
    /\ (recvDone e = false ->
        cleanUp f e w = Blocked w' /\ closed w' ChDone = false)
    /\ (recvDone e = true ->
        exists w'',
          cleanUp f e w = Returned tt w''
          /\ trace w'' = trace w ++ cleanUp_deliveries f e
          /\ all_closed w''
          /\ files w'' = files w').
Proof.
  intros Hopen.
  pose proof (Hopen ChProgress) as Hp.
  pose proof (Hopen ChError) as He.
  pose proof (Hopen ChDone) as Hd.
  destruct w as [fs cp ce cd tr]. cbn in Hp, He, Hd. subst cp ce cd.
  exists {| files := (if ctxDone e
                      then filter (fun p => negb (String.eqb p (outputFile f))) fs
                      else fs);
            progressClosed := true; errorClosed := true; doneClosed := false;
            trace := tr ++ cleanUp_closes f e |}.
  unfold Blocking.cleanUp, cleanUp_deliveries, cleanUp_closes, andThen, send,
    os_Remove, close, ret, record.
  destruct (ctxDone e), (recvDone e); cbn; rewrite <- ?app_assoc; cbn;
    (split; [reflexivity|]); (split; [reflexivity|]);
    (split; [intros Hno; try discriminate; split; reflexivity|]);
    intros Hyes; try discriminate;
    (eexists; split; [reflexivity|]); cbn; rewrite <- ?app_assoc; cbn;
    (split; [reflexivity|]); (split; [|reflexivity]);
    intros []; reflexivity.
Qed.

(** Heard reads in front of the input only add their deliveries. *)
Lemma Blocking_reader_after_heard (before rest : list (string * Sched))
    (eof : Sched) :
  Forall (heard newProgress f) before ->
  forall w, all_open w ->
    exists w1,
      all_open w1
      /\ trace w1 = trace w ++ flat_map (deliveries newProgress f) before
      /\ files w1 = files w
      /\ reader f (before ++ rest) eof w = reader f rest eof w1.
Proof.
  induction before as [|[line e] before IH]; intros Hheard w Hopen.
  - exists w. cbn. rewrite app_nil_r. now repeat split.
  - inversion Hheard as [|read reads Hread Hrest]; subst.
    unfold heard, parsed in Hread. cbn [fst snd] in Hread.
    cbn [Blocking.reader flat_map app]. unfold deliveries at 1, parsed.
    cbn [fst snd].
    destruct (newProgress (now e) line (duration f) (startTime f) (inputFile f)
                (outputFile f)) as [progress|err].
    + unfold andThen at 1. unfold send. cbn [chan_of].
      rewrite (Hopen ChProgress), Hread.
      set (w1 := record (Received (MProgress progress)) w).
      assert (Hopen1 : all_open w1) by (intros c; apply Hopen).
      destruct (IH Hrest w1 Hopen1) as (w2 & Hopen2 & Htrace & Hfiles & Hrun).
      exists w2. split; [exact Hopen2|]. split.
      { rewrite Htrace. subst w1. cbn. now rewrite <- !app_assoc. }
      split; [exact Hfiles|exact Hrun].
    + unfold errors_Is.
      destruct (error_eq_dec err ErrNoProgressInformation) as [E|Hhard].
      * cbn [negb app]. unfold andThen at 1, ret. exact (IH Hrest w Hopen).
      * destruct Hread as [E|Hready]; [contradiction|].
        cbn [negb]. unfold andThen at 1. unfold send. cbn [chan_of].
        rewrite (Hopen ChError), Hready.
        set (w1 := record (Received (MError err)) w).
        assert (Hopen1 : all_open w1) by (intros c; apply Hopen).
        destruct (IH Hrest w1 Hopen1) as (w2 & Hopen2 & Htrace & Hfiles & Hrun).
        exists w2. split; [exact Hopen2|]. split.
        { rewrite Htrace. subst w1. cbn. now rewrite <- !app_assoc. }
        split; [exact Hfiles|exact Hrun].
Qed.

Lemma Blocking_cleanUp_quiet (e : Sched) (w : World Progress) :
  count is_dropped (trace (outcome_world (cleanUp f e w)))
  = count is_dropped (trace w)
  /\ count is_kill (trace (outcome_world (cleanUp f e w)))
     = count is_kill (trace w).
Proof.
  destruct w as [fs cp ce cd tr].
  unfold Blocking.cleanUp, andThen, send, os_Remove, close, ret, record, count.
  destruct cp, ce, cd, (ctxDone e), (recvDone e); cbn;
    rewrite ?filter_app; cbn; rewrite ?app_nil_r; split; reflexivity.
Qed.

Lemma Blocking_reader_quiet (input : list (string * Sched)) (eof : Sched) :
  forall w : World Progress,
    count is_dropped (trace (outcome_world (reader f input eof w)))
    = count is_dropped (trace w)
    /\ count is_kill (trace (outcome_world (reader f input eof w)))
       = count is_kill (trace w).
Proof.
  assert (Hsend : forall (ready : bool) (m : message Progress)
                    (k : Task Progress unit) (w : World Progress),
             (forall w1, count is_dropped (trace (outcome_world (k w1)))
                         = count is_dropped (trace w1)
                         /\ count is_kill (trace (outcome_world (k w1)))
                            = count is_kill (trace w1)) ->
             count is_dropped
               (trace (outcome_world (andThen (send ready m) (fun _ => k) w)))
             = count is_dropped (trace w)
             /\ count is_kill
                  (trace (outcome_world (andThen (send ready m) (fun _ => k) w)))
                = count is_kill (trace w)).
  { intros ready m k w Hk. unfold andThen, send.
    destruct (closed w (chan_of m)); [now split|].
    destruct ready; [|now split].
    destruct (Hk (record (Received m) w)) as [Hd Hc].
    rewrite Hd, Hc. unfold record, count. cbn. rewrite !filter_app. cbn.
    now rewrite !app_nil_r. }
  induction input as [|[line e] rest IH]; intros w.
  - apply Blocking_cleanUp_quiet.
  - cbn [Blocking.reader].
    destruct (newProgress (now e) line (duration f) (startTime f) (inputFile f)
                (outputFile f)) as [progress|err].
    + apply Hsend. exact IH.
    + destruct (negb (errors_Is err ErrNoProgressInformation)).
      * apply Hsend. exact IH.
      * unfold andThen, ret. apply IH.
Qed.

End BlockingFacts.

(** X15. With a consumer receiving every message it sends, the second
    revision's reader delivers the record of every progress line and every
    parse failure other than [ErrNoProgressInformation], in the order of the
    reads, and reads on after a failure; when the read fails it closes the
    progress channel, removes the destination if the context is cancelled,
    closes the error channel, reports [false] and closes the completion
    channel. *)
Theorem blocking_reader_delivers_everything {Progress : Type}
    (newProgress : time_Time -> string -> time_Duration -> time_Time ->
                   string -> string -> result Progress)
    (f : Ffmpeg) (input : list (string * Sched)) (eof : Sched)
    (w : World Progress) :
  Forall (heard newProgress f) input ->
  recvDone eof = true ->
  all_open w ->
  exists w',
    Blocking.reader newProgress f input eof w = Returned tt w'
    /\ trace w'
       = trace w ++ flat_map (deliveries newProgress f) input
           ++ cleanUp_deliveries f eof
    /\ all_closed w'
    /\ files w'
       = (if ctxDone eof
          then filter (fun p => negb (String.eqb p (outputFile f))) (files w)
          else files w).
Proof.
  intros Hheard Hdone Hopen.
  destruct (Blocking_reader_after_heard newProgress f input [] eof Hheard w Hopen)
    as (w1 & Hopen1 & Htrace1 & Hfiles1 & Hrun1).
  rewrite app_nil_r in Hrun1. rewrite Hrun1. cbn [Blocking.reader].
  destruct (Blocking_cleanUp_on_open f eof w1 Hopen1)
    as (w2 & _ & Hfiles2 & _ & Hyes).
  destruct (Hyes Hdone) as (w' & Hrun & Htrace & Hclosed & Hfiles).
  exists w'. split; [exact Hrun|]. split; [|split; [exact Hclosed|]].
  - rewrite Htrace, Htrace1. now rewrite <- !app_assoc.
  - now rewrite Hfiles, Hfiles2, Hfiles1.
Qed.

Lemma blocking_reader_delivers_everything_witness :
  exists w' : World Fixed.Progress,
    Blocking.reader Fixed.newProgress run100
      [(line_banner, unattended); (line_malformed, listening);
       (line_progress, listening)] cancelled (fresh disk) = Returned tt w'
    /\ trace w'
       = [Received (MError ErrFrameNumber); Received (MProgress progress_at_5s);
          Closed ChProgress; Removed "out.mp4"; Closed ChError;
          Received (MDone false); Closed ChDone]
    /\ files w' = ["in.mkv"].
Proof.
  destruct (blocking_reader_delivers_everything Fixed.newProgress run100
              [(line_banner, unattended); (line_malformed, listening);
               (line_progress, listening)] cancelled (fresh disk))
    as (w' & Hrun & Htrace & _ & Hfiles).
  - repeat (apply Forall_cons || apply Forall_nil); vm_compute; auto.
  - reflexivity.
  - apply fresh_all_open.
  - exists w'. split; [exact Hrun|]. split.
    + rewrite Htrace. vm_compute. reflexivity.
    + rewrite Hfiles. vm_compute. reflexivity.
Defined.

(** X16. The second revision's reader stops for good at the first message
    that no consumer receives: the messages of the reads before it have been
    delivered, and the reader blocks on the send with every channel still
    open, so that nothing is read after it, [cleanUp] does not run and the
    destination is never removed. *)
Theorem blocking_reader_waits_for_the_consumer {Progress : Type}
    (newProgress : time_Time -> string -> time_Duration -> time_Time ->
                   string -> string -> result Progress)
    (f : Ffmpeg) (before rest : list (string * Sched)) (read : string * Sched)
    (eof : Sched) (w : World Progress) :
  Forall (heard newProgress f) before ->
  unheard newProgress f read ->
  all_open w ->
  exists w',
    Blocking.reader newProgress f (before ++ read :: rest) eof w = Blocked w'
    /\ trace w' = trace w ++ flat_map (deliveries newProgress f) before
    /\ all_open w'
    /\ files w' = files w.
Proof.
  intros Hheard Hread Hopen.
  destruct (Blocking_reader_after_heard newProgress f before (read :: rest) eof
              Hheard w Hopen) as (w1 & Hopen1 & Htrace1 & Hfiles1 & Hrun1).
  exists w1. split; [|now repeat split].
  rewrite Hrun1. destruct read as [line e].
  unfold unheard, parsed in Hread. cbn [fst snd] in Hread.
  cbn [Blocking.reader].
  destruct (newProgress (now e) line (duration f) (startTime f) (inputFile f)
              (outputFile f)) as [progress|err].
  - unfold andThen, send. cbn [chan_of]. now rewrite (Hopen1 ChProgress), Hread.
  - destruct Hread as [Hhard Hready]. unfold errors_Is.
    destruct (error_eq_dec err ErrNoProgressInformation) as [E|_];
      [contradiction|].
    cbn [negb]. unfold andThen, send. cbn [chan_of].
    now rewrite (Hopen1 ChError), Hready.
Qed.

Lemma blocking_reader_waits_for_the_consumer_witness :
  exists w' : World Fixed.Progress,
    Blocking.reader Fixed.newProgress run100
      ([(line_progress, listening)]
       ++ (line_progress, unattended) :: [(line_progress, listening)])
      cancelled (fresh disk) = Blocked w'
    /\ trace w' = [Received (MProgress progress_at_5s)]
    /\ files w' = disk.
Proof.
  destruct (blocking_reader_waits_for_the_consumer Fixed.newProgress run100
              [(line_progress, listening)] [(line_progress, listening)]
              (line_progress, unattended) cancelled (fresh disk))
    as (w' & Hrun & Htrace & _ & Hfiles).
  - repeat (apply Forall_cons || apply Forall_nil); vm_compute; auto.
  - vm_compute. reflexivity.
  - apply fresh_all_open.
  - exists w'. split; [exact Hrun|]. split; [|exact Hfiles].
    rewrite Htrace. vm_compute. reflexivity.
Defined.

(** X17. When the read fails and no consumer receives on the completion
    channel, the second revision's reader blocks inside [cleanUp] on its
    report: the progress and error channels are closed and the destination
    is removed if the context is cancelled, but the completion channel is
    left open. *)
Theorem blocking_cleanUp_waits_for_the_consumer {Progress : Type}
    (newProgress : time_Time -> string -> time_Duration -> time_Time ->
                   string -> string -> result Progress)
    (f : Ffmpeg) (input : list (string * Sched)) (eof : Sched)
    (w : World Progress) :
  Forall (heard newProgress f) input ->
  recvDone eof = false ->
  all_open w ->
  exists w',
    Blocking.reader newProgress f input eof w = Blocked w'
    /\ trace w'
       = trace w ++ flat_map (deliveries newProgress f) input
           ++ cleanUp_closes f eof
    /\ closed w' ChDone = false
    /\ files w'
       = (if ctxDone eof
          then filter (fun p => negb (String.eqb p (outputFile f))) (files w)
          else files w).
Proof.
  intros Hheard Hdone Hopen.
  destruct (Blocking_reader_after_heard newProgress f input [] eof Hheard w Hopen)
    as (w1 & Hopen1 & Htrace1 & Hfiles1 & Hrun1).
  rewrite app_nil_r in Hrun1. rewrite Hrun1. cbn [Blocking.reader].
  destruct (Blocking_cleanUp_on_open f eof w1 Hopen1)
    as (w' & Htrace & Hfiles & Hno & _).
  destruct (Hno Hdone) as [Hrun Hopen'].
  exists w'. split; [exact Hrun|]. split; [|split; [exact Hopen'|]].
  - rewrite Htrace, Htrace1. now rewrite <- !app_assoc.
  - now rewrite Hfiles, Hfiles1.
Qed.

Lemma blocking_cleanUp_waits_for_the_consumer_witness :
  exists w' : World Fixed.Progress,
    Blocking.reader Fixed.newProgress run100 [(line_progress, listening)]
      {| now := 5 * Second; ctxDone := true; recvProgress := false;
         recvError := false; recvDone := false |} (fresh disk) = Blocked w'
    /\ trace w'
       = [Received (MProgress progress_at_5s); Closed ChProgress;
          Removed "out.mp4"; Closed ChError]
    /\ closed w' ChDone = false.
Proof.
  destruct (blocking_cleanUp_waits_for_the_consumer Fixed.newProgress run100
              [(line_progress, listening)]
              {| now := 5 * Second; ctxDone := true; recvProgress := false;
                 recvError := false; recvDone := false |} (fresh disk))
    as (w' & Hrun & Htrace & Hopen & _).
  - repeat (apply Forall_cons || apply Forall_nil); vm_compute; auto.
  - reflexivity.
  - apply fresh_all_open.
  - exists w'. split; [exact Hrun|]. split; [|exact Hopen].
    rewrite Htrace. vm_compute. reflexivity.
Defined.

(** X18. However it ends (returned, blocked or panicked on a closed
    channel) and whatever the consumers do, the second revision's reader
    never gives a message up and never cancels the command: the trace it
    leaves has no dropped message and no cancellation that was not there
    before. *)
Theorem blocking_reader_never_drops_or_cancels {Progress : Type}
    (newProgress : time_Time -> string -> time_Duration -> time_Time ->
                   string -> string -> result Progress)
    (f : Ffmpeg) (input : list (string * Sched)) (eof : Sched)
    (w : World Progress) :
  count is_dropped
    (trace (outcome_world (Blocking.reader newProgress f input eof w)))
  = count is_dropped (trace w)
  /\ count is_kill
       (trace (outcome_world (Blocking.reader newProgress f input eof w)))
     = count is_kill (trace w).
Proof.
  apply Blocking_reader_quiet.
Qed.
